(** * CustomHolestello: the block generator of [src/main.js]

    A shallow embedding of the parametric generator: the input handlers
    of [init], the mesh pipeline [generateModel] and the Rhino script
    emitter [downloadRhinoScript], followed by the properties of the
    layout they compute.

    Modelling conventions.
    - A JavaScript number is [NaN], an infinity or an exact rational:
      rounding and the sign of zero are not modelled, and arithmetic
      does not overflow.  Every comparison with [NaN] is false, as in
      the language.
    - [parseInt] reads the exact integer the digits spell.  What the
      hole count fields store once that integer is converted to a
      double, [Infinity] for a text of some 309 digits, is the subject
      of the section on the range of doubles; the sessions are run on
      the exact integers.
    - A string is a sequence of code units below 256 ([string]).
    - Boolean subtraction is kept symbolic: a solid is the box brush
      together with the brushes subtracted from it, in order.
    - A quarter turn [Math.PI / 2] is kept symbolic as well.
    - The emitted script is the record of the values interpolated into
      its fixed text; a printed number reads back as the same number, and
      the Python is run on exact rationals.  The script halves only
      even integers, so Python's integer division changes nothing.
    - The DOM, the renderer, the camera and the files written are left
      out.  In the sessions the debounce timer is a flag saying a
      regeneration is due; the timed runs have the table of pending
      timeouts, those of [debouncedGenerate] and of [downloadFile]. *)

From Stdlib Require Import ZArith QArith Qround List String Ascii Bool Lia.
From Stdlib Require Import Lqa.
Import ListNotations.

(** ** JavaScript numbers *)

Module JS.

Inductive number : Type :=
| NaN
| Inf (negative : bool)
| Num (q : Q).

Definition Qzerob (q : Q) : bool := Qeq_bool q 0.
Definition Qnegb (q : Q) : bool := negb (Qle_bool 0 q).
Definition Qltb (a b : Q) : bool := negb (Qle_bool b a).

Definition of_Z (z : Z) : number := Num (inject_Z z).

Definition neg (a : number) : number :=
  match a with
  | NaN => NaN
  | Inf s => Inf (negb s)
  | Num q => Num (- q)
  end.

Definition add (a b : number) : number :=
  match a, b with
  | NaN, _ | _, NaN => NaN
  | Inf s, Inf t => if Bool.eqb s t then Inf s else NaN
  | Inf s, Num _ => Inf s
  | Num _, Inf t => Inf t
  | Num x, Num y => Num (x + y)
  end.

Definition sub (a b : number) : number :=
  match a, b with
  | NaN, _ | _, NaN => NaN
  | Inf s, Inf t => if Bool.eqb s t then NaN else Inf s
  | Inf s, Num _ => Inf s
  | Num _, Inf t => Inf (negb t)
  | Num x, Num y => Num (x - y)
  end.

Definition mul (a b : number) : number :=
  match a, b with
  | NaN, _ | _, NaN => NaN
  | Inf s, Inf t => Inf (xorb s t)
  | Inf s, Num y => if Qzerob y then NaN else Inf (xorb s (Qnegb y))
  | Num x, Inf t => if Qzerob x then NaN else Inf (xorb (Qnegb x) t)
  | Num x, Num y => Num (x * y)
  end.

(** A zero divisor is read as [+0]. *)
Definition div (a b : number) : number :=
  match a, b with
  | NaN, _ | _, NaN => NaN
  | Inf _, Inf _ => NaN
  | Inf s, Num y => Inf (xorb s (Qnegb y))
  | Num _, Inf _ => Num 0
  | Num x, Num y =>
      if Qzerob y then (if Qzerob x then NaN else Inf (Qnegb x))
      else Num (x / y)
  end.

(** [a < b] *)
Definition lt (a b : number) : bool :=
  match a, b with
  | NaN, _ | _, NaN => false
  | Inf s, Inf t => s && negb t
  | Inf s, Num _ => s
  | Num _, Inf t => negb t
  | Num x, Num y => Qltb x y
  end.

(** [a <= b] *)
Definition le (a b : number) : bool :=
  match a, b with
  | NaN, _ | _, NaN => false
  | Inf s, Inf t => s || negb t
  | Inf s, Num _ => s
  | Num _, Inf t => negb t
  | Num x, Num y => Qle_bool x y
  end.

(** [a > b] *)
Definition gt (a b : number) : bool := lt b a.

Definition isNaN (a : number) : bool :=
  match a with NaN => true | _ => false end.

(** Two numbers denote the same value ([NaN] included). *)
Definition same (a b : number) : Prop :=
  match a, b with
  | NaN, NaN => True
  | Inf s, Inf t => s = t
  | Num x, Num y => x == y
  | _, _ => False
  end.

End JS.

Import JS.

Declare Scope js_scope.
Delimit Scope js_scope with js.
Bind Scope js_scope with number.
Infix "+" := JS.add : js_scope.
Infix "-" := JS.sub : js_scope.
Infix "*" := JS.mul : js_scope.
Infix "/" := JS.div : js_scope.
Notation "- a" := (JS.neg a) : js_scope.
Infix "<?" := JS.lt : js_scope.
Infix "<=?" := JS.le : js_scope.
Infix ">?" := JS.gt (at level 70) : js_scope.

(** ** Strings and the parsing built-ins *)

Module Str.

Open Scope char_scope.

Definition code (c : ascii) : Z := Z.of_N (N_of_ascii c).

(** White space and line terminators below 256. *)
Definition is_space (c : ascii) : bool :=
  let n := code c in
  ((9 <=? n) && (n <=? 13) || (n =? 32) || (n =? 160))%Z.

Fixpoint skip_space (s : list ascii) : list ascii :=
  match s with
  | c :: t => if is_space c then skip_space t else s
  | [] => []
  end.

(** [s.trim()] *)
Definition trim (s : string) : string :=
  string_of_list_ascii
    (rev (skip_space (rev (skip_space (list_ascii_of_string s))))).

(** [s.split(',')]: the pieces between the commas; never empty. *)
Fixpoint split_comma (s : string) : list string :=
  match s with
  | EmptyString => [EmptyString]
  | String c t =>
      if Ascii.eqb c "," then EmptyString :: split_comma t
      else match split_comma t with
           | h :: r => String c h :: r
           | [] => [String c EmptyString]
           end
  end.

Definition digit_value (c : ascii) : option Z :=
  let n := code c in
  if ((48 <=? n) && (n <=? 57))%Z then Some (n - 48)%Z
  else if ((97 <=? n) && (n <=? 122))%Z then Some (n - 87)%Z
  else if ((65 <=? n) && (n <=? 90))%Z then Some (n - 55)%Z
  else None.

Definition radix_digit (R : Z) (c : ascii) : option Z :=
  match digit_value c with
  | Some v => if (v <? R)%Z then Some v else None
  | None => None
  end.

(** The longest prefix of radix-[R] digits, most significant first. *)
Fixpoint take_digits (R : Z) (s : list ascii) : list Z * list ascii :=
  match s with
  | c :: t =>
      match radix_digit R c with
      | Some v => let (ds, r) := take_digits R t in (v :: ds, r)
      | None => ([], s)
      end
  | [] => ([], [])
  end.

Definition digits_value (R : Z) (ds : list Z) : Z :=
  fold_left (fun a d => (R * a + d)%Z) ds 0%Z.

(** An optional sign: is it a minus, and what follows it. *)
Definition take_sign (s : list ascii) : bool * list ascii :=
  match s with
  | c :: t =>
      if Ascii.eqb c "-" then (true, t)
      else if Ascii.eqb c "+" then (false, t)
      else (false, s)
  | [] => (false, [])
  end.

Definition signed (negative : bool) (z : Z) : Z :=
  if negative then (- z)%Z else z.

(** [parseInt(s)] with no radix argument: the integer the digits spell,
    before its conversion to a double. *)
Definition parseInt (s : string) : number :=
  let (negative, s1) := take_sign (skip_space (list_ascii_of_string s)) in
  let (R, s2) :=
    match s1 with
    | z :: x :: t =>
        if Ascii.eqb z "0" && (Ascii.eqb x "x" || Ascii.eqb x "X")
        then (16%Z, t) else (10%Z, s1)
    | _ => (10%Z, s1)
    end in
  match fst (take_digits R s2) with
  | [] => NaN
  | ds => of_Z (signed negative (digits_value R ds))
  end.

Fixpoint starts_with (p s : list ascii) : bool :=
  match p, s with
  | [], _ => true
  | a :: p', b :: s' => Ascii.eqb a b && starts_with p' s'
  | _ :: _, [] => false
  end.

(** The exponent part [e], [e+] or [e-] followed by digits; [0] when
    it is absent or has no digit. *)
Definition take_exponent (s : list ascii) : Z :=
  match s with
  | c :: t =>
      if Ascii.eqb c "e" || Ascii.eqb c "E" then
        let (negative, t') := take_sign t in
        signed negative (digits_value 10 (fst (take_digits 10 t')))
      else 0%Z
  | [] => 0%Z
  end.

(** [parseFloat(s)]: the longest prefix that is a decimal literal. *)
Definition parseFloat (s : string) : number :=
  let (negative, s1) := take_sign (skip_space (list_ascii_of_string s)) in
  if starts_with (list_ascii_of_string "Infinity") s1 then Inf negative
  else
    let (ip, r1) := take_digits 10 s1 in
    let (fp, r2) :=
      match r1 with
      | c :: t => if Ascii.eqb c "." then take_digits 10 t else ([], r1)
      | [] => ([], r1)
      end in
    match (ip ++ fp)%list with
    | [] => NaN
    | ds =>
        let e := (take_exponent r2 - Z.of_nat (List.length fp))%Z in
        let m := inject_Z (digits_value 10 ds) in
        Num ((if negative then - m else m) * (10 # 1) ^ e)
    end.

End Str.

Import Str.
Open Scope string_scope.

(** ** Geometry of the preview (three.js and three-bvh-csg, symbolically) *)

Open Scope Z_scope.

(** The integers [start], [start + 1], ...: [count] of them. *)
Fixpoint upto (start : Z) (count : nat) : list Z :=
  match count with
  | O => []
  | S c => (start :: upto (start + 1) c)%list
  end.

(** Configuration *)
Definition BOX_WIDTH : number := of_Z 20.
Definition BOX_DEPTH : number := of_Z 20.
Definition HEIGHT_PER_HOLE : number := of_Z 20.
Definition FIRST_HOLE_OFFSET : number := of_Z 10.
Definition HOLE_STEP : number := of_Z 20.
Definition BATCH_SPACING : number := of_Z 40.

Inductive Geometry : Type :=
| BoxGeometry (width height depth : number)
| CylinderGeometry (radiusTop radiusBottom height : number) (segments : Z).

(** The three rotations the generator sets on a brush. *)
Inductive Rotation : Type :=
| no_turn   (* the default *)
| turn_z    (* rotation.set(0, 0, Math.PI / 2) *)
| turn_x.   (* rotation.set(Math.PI / 2, 0, 0) *)

Record Vector3 : Type := vec3 { vx : number; vy : number; vz : number }.

(** The variable of [generateModel] a brush is bound to. *)
Inductive BrushName : Type :=
| boxBrush | vCylBrush | xBrush | zBrush
| fG | bG | rG | lG
| topX | topZ | botX | botZ.

Record Brush : Type := mkBrush {
  name : BrushName;
  geometry : Geometry;
  rotation : Rotation;
  position : Vector3
}.

(** The value of [resultBrush]: the box and what was subtracted so far. *)
Record Solid : Type := mkSolid {
  base : Brush;
  cut : list Brush
}.

(** [evaluator.evaluate(a, b, SUBTRACTION)] *)
Definition evaluate (a : Solid) (b : Brush) : Solid :=
  {| base := base a; cut := cut a ++ [b] |}.

(** [new THREE.Mesh(resultBrush.geometry, material)] *)
Definition Mesh : Type := Solid.

(** ** The parameters and the input handlers of [init] *)

Record State : Type := mkState {
  mode : string;
  numHoles : number;
  batchList : list number;
  drillRadius : number;
  grooveDepth : number;
  currentMeshes : list Mesh;
  debounceTimer : bool  (* a regeneration is scheduled *)
}.

Definition half : number := Num (1 # 2).

(** The module-level initial values, once [init(); debouncedGenerate()]
    have run. *)
Definition initial : State :=
  {| mode := "single";
     numHoles := of_Z 5;
     batchList := [of_Z 3; of_Z 2; of_Z 5];
     drillRadius := of_Z 4;
     grooveDepth := half;
     currentMeshes := [];
     debounceTimer := true |}.

Definition debouncedGenerate (st : State) : State :=
  {| mode := mode st; numHoles := numHoles st; batchList := batchList st;
     drillRadius := drillRadius st; grooveDepth := grooveDepth st;
     currentMeshes := currentMeshes st; debounceTimer := true |}.

Definition set_mode (v : string) (st : State) : State :=
  {| mode := v; numHoles := numHoles st; batchList := batchList st;
     drillRadius := drillRadius st; grooveDepth := grooveDepth st;
     currentMeshes := currentMeshes st; debounceTimer := debounceTimer st |}.

Definition set_numHoles (v : number) (st : State) : State :=
  {| mode := mode st; numHoles := v; batchList := batchList st;
     drillRadius := drillRadius st; grooveDepth := grooveDepth st;
     currentMeshes := currentMeshes st; debounceTimer := debounceTimer st |}.

Definition set_batchList (v : list number) (st : State) : State :=
  {| mode := mode st; numHoles := numHoles st; batchList := v;
     drillRadius := drillRadius st; grooveDepth := grooveDepth st;
     currentMeshes := currentMeshes st; debounceTimer := debounceTimer st |}.

Definition set_drillRadius (v : number) (st : State) : State :=
  {| mode := mode st; numHoles := numHoles st; batchList := batchList st;
     drillRadius := v; grooveDepth := grooveDepth st;
     currentMeshes := currentMeshes st; debounceTimer := debounceTimer st |}.

Definition set_grooveDepth (v : number) (st : State) : State :=
  {| mode := mode st; numHoles := numHoles st; batchList := batchList st;
     drillRadius := drillRadius st; grooveDepth := v;
     currentMeshes := currentMeshes st; debounceTimer := debounceTimer st |}.

Definition set_currentMeshes (v : list Mesh) (st : State) : State :=
  {| mode := mode st; numHoles := numHoles st; batchList := batchList st;
     drillRadius := drillRadius st; grooveDepth := grooveDepth st;
     currentMeshes := v; debounceTimer := debounceTimer st |}.

(** The listener of the mode radios; [e.target.value] is [value]. *)
Definition on_mode_change (value : string) (st : State) : State :=
  debouncedGenerate (set_mode value st).

(** The listener of [holesInput] (the two displays it refreshes are left
    out). *)
Definition on_holes_input (value : string) (st : State) : State :=
  let val := parseInt value in
  let val := if (val <? of_Z 1)%js then of_Z 1 else val in
  debouncedGenerate (set_numHoles val st).

(** The listener of [batchInput]: the list it parses, and the listener. *)
Definition parse_batch (str : string) : list number :=
  filter (fun n => negb (isNaN n) && (n >? of_Z 0)%js)
         (map (fun s => parseInt (trim s)) (split_comma str)).

Definition on_batch_input (value : string) (st : State) : State :=
  let parts := parse_batch value in
  let st := if (0 <? Z.of_nat (List.length parts)) then set_batchList parts st
            else st in
  debouncedGenerate st.

(** The listener of [radiusInput]. *)
Definition on_radius_input (value : string) (st : State) : State :=
  let val := parseFloat value in
  let val := if (val <=? of_Z 0)%js then half else val in
  debouncedGenerate (set_drillRadius val st).

(** The listener of [depthInput]. *)
Definition on_depth_input (value : string) (st : State) : State :=
  let val := parseFloat value in
  debouncedGenerate (set_grooveDepth val st).

(** ** The mesh pipeline: [generateModel] *)

Definition SEGMENTS : Z := 16.

Definition blocksToMake (st : State) : list number :=
  if String.eqb (mode st) "single" then [numHoles st] else batchList st.

(** [for (let i = ...; i < holes; i++) body], at most [fuel] tests of the
    condition; [None] when they do not suffice. *)
Fixpoint for_lt (fuel : nat) (i : Z) (holes : number)
    (body : Z -> Solid -> Solid) (acc : Solid) : option Solid :=
  match fuel with
  | O => None
  | S f =>
      if (of_Z i <? holes)%js
      then for_lt f (i + 1) holes body (body i acc)
      else Some acc
  end.

(** How many tests the loop from [0] needs; none suffice for [+Infinity]. *)
Definition loop_fuel (holes : number) : option nat :=
  match holes with
  | NaN => Some 1%nat
  | Inf true => Some 1%nat
  | Inf false => None
  | Num q => Some (S (Z.to_nat (Qceiling q)))
  end.

Definition for_holes (holes : number) (body : Z -> Solid -> Solid)
    (acc : Solid) : option Solid :=
  match loop_fuel holes with
  | Some fuel => for_lt fuel 0 holes body acc
  | None => None
  end.

Section Block.

Variables drillRadius' grooveDepth' : number.

Definition hCylGeo : Geometry :=
  CylinderGeometry drillRadius' drillRadius' (of_Z 80) SEGMENTS.

(** The body of the loop over the hole levels. *)
Definition hole_level (xOffset boxHeight sideGrooveOffset : number)
    (i : Z) (resultBrush : Solid) : Solid :=
  let yPos :=
    ((- boxHeight) / of_Z 2 + FIRST_HOLE_OFFSET + of_Z i * HOLE_STEP)%js in
  let resultBrush := evaluate resultBrush
    (mkBrush xBrush hCylGeo turn_z (vec3 xOffset yPos (of_Z 0))) in
  let resultBrush := evaluate resultBrush
    (mkBrush zBrush hCylGeo turn_x (vec3 xOffset yPos (of_Z 0))) in
  if (grooveDepth' >? of_Z 0)%js then
    let resultBrush := evaluate resultBrush
      (mkBrush fG hCylGeo turn_z (vec3 xOffset yPos sideGrooveOffset)) in
    let resultBrush := evaluate resultBrush
      (mkBrush bG hCylGeo turn_z (vec3 xOffset yPos (- sideGrooveOffset)%js)) in
    let resultBrush := evaluate resultBrush
      (mkBrush rG hCylGeo turn_x
         (vec3 (xOffset + sideGrooveOffset)%js yPos (of_Z 0))) in
    let resultBrush := evaluate resultBrush
      (mkBrush lG hCylGeo turn_x
         (vec3 (xOffset - sideGrooveOffset)%js yPos (of_Z 0))) in
    resultBrush
  else resultBrush.

(** The top and bottom grooves. *)
Definition end_grooves (xOffset topBottomGrooveOffset : number)
    (resultBrush : Solid) : Solid :=
  if (grooveDepth' >? of_Z 0)%js then
    let resultBrush := evaluate resultBrush
      (mkBrush topX hCylGeo turn_z
         (vec3 xOffset topBottomGrooveOffset (of_Z 0))) in
    let resultBrush := evaluate resultBrush
      (mkBrush topZ hCylGeo turn_x
         (vec3 xOffset topBottomGrooveOffset (of_Z 0))) in
    let resultBrush := evaluate resultBrush
      (mkBrush botX hCylGeo turn_z
         (vec3 xOffset (- topBottomGrooveOffset)%js (of_Z 0))) in
    let resultBrush := evaluate resultBrush
      (mkBrush botZ hCylGeo turn_x
         (vec3 xOffset (- topBottomGrooveOffset)%js (of_Z 0))) in
    resultBrush
  else resultBrush.

(** The callback of [blocksToMake.forEach]: one block. *)
Definition make_block (holes : number) (index : Z) : option Mesh :=
  let boxHeight := (holes * HEIGHT_PER_HOLE)%js in
  let boxGeo := BoxGeometry BOX_WIDTH boxHeight BOX_DEPTH in
  let xOffset := (of_Z index * BATCH_SPACING)%js in
  let resultBrush :=
    mkSolid (mkBrush boxBrush boxGeo no_turn (vec3 xOffset (of_Z 0) (of_Z 0)))
            [] in
  let vCylGeo :=
    CylinderGeometry drillRadius' drillRadius' (boxHeight + of_Z 20)%js
                     SEGMENTS in
  let resultBrush := evaluate resultBrush
    (mkBrush vCylBrush vCylGeo no_turn (vec3 xOffset (of_Z 0) (of_Z 0))) in
  let sideGrooveOffset :=
    (BOX_WIDTH / of_Z 2 - grooveDepth' + drillRadius')%js in
  let topBottomGrooveOffset :=
    (boxHeight / of_Z 2 - grooveDepth' + drillRadius')%js in
  match for_holes holes (hole_level xOffset boxHeight sideGrooveOffset)
                  resultBrush with
  | Some resultBrush =>
      Some (end_grooves xOffset topBottomGrooveOffset resultBrush)
  | None => None
  end.

(** [blocksToMake.forEach((holes, index) => ...)] pushing onto
    [currentMeshes]. *)
Fixpoint forEach_block (blocks : list number) (index : Z)
    (meshes : list Mesh) : option (list Mesh) :=
  match blocks with
  | [] => Some meshes
  | holes :: rest =>
      match make_block holes index with
      | Some mesh => forEach_block rest (index + 1) (meshes ++ [mesh])
      | None => None
      end
  end.

End Block.

(** [generateModel()]: [None] when a hole loop never ends. *)
Definition generateModel (st : State) : option State :=
  let st := set_currentMeshes [] st in
  match forEach_block (drillRadius st) (grooveDepth st)
                      (blocksToMake st) 0 (currentMeshes st) with
  | Some meshes => Some (set_currentMeshes meshes st)
  | None => None
  end.

Definition boxHeight_of (m : Mesh) : option number :=
  match geometry (base m) with
  | BoxGeometry _ h _ => Some h
  | CylinderGeometry _ _ _ _ => None
  end.

(** ** The script emitter: [downloadRhinoScript]

    The emitted text is fixed but for the interpolated [${...}] values;
    a script is the record of these values, in the order they occur, and
    its meaning is the Python they are interpolated into, run on
    [rhinoscriptsyntax] kept symbolic. *)

Record RhinoScript : Type := mkScript {
  lit_width : number;             (* width = ${BOX_WIDTH} *)
  lit_depth : number;             (* depth = ${BOX_DEPTH} *)
  lit_height_per_hole : number;   (* num_holes * ${HEIGHT_PER_HOLE} *)
  lit_radius : number;            (* radius = ${drillRadius} *)
  lit_offset : number;            (* offset = ${FIRST_HOLE_OFFSET} *)
  lit_step_size : number;         (* step_size = ${HOLE_STEP} *)
  lit_groove_offset : number;     (* groove_offset = ${...} *)
  lit_level_guard : number;       (* if ${grooveDepth} > 0: in the loop *)
  lit_ends_guard : number;        (* if ${grooveDepth} > 0: after it *)
  lit_tb_depth : number;          (* ... - ${grooveDepth} + ... *)
  lit_tb_radius : number;         (* ... + ${drillRadius} *)
  lit_blocks : list number;       (* blocks = [${blocks.join(',')}] *)
  lit_spacing : number            (* spacing = ${BATCH_SPACING} *)
}.

Definition downloadRhinoScript (st : State) : RhinoScript :=
  let blocks :=
    if String.eqb (mode st) "single" then [numHoles st] else batchList st in
  {| lit_width := BOX_WIDTH;
     lit_depth := BOX_DEPTH;
     lit_height_per_hole := HEIGHT_PER_HOLE;
     lit_radius := drillRadius st;
     lit_offset := FIRST_HOLE_OFFSET;
     lit_step_size := HOLE_STEP;
     lit_groove_offset :=
       (BOX_WIDTH / of_Z 2 - grooveDepth st + drillRadius st)%js;
     lit_level_guard := grooveDepth st;
     lit_ends_guard := grooveDepth st;
     lit_tb_depth := grooveDepth st;
     lit_tb_radius := drillRadius st;
     lit_blocks := blocks;
     lit_spacing := BATCH_SPACING |}.

Module Py.

Open Scope Q_scope.
Open Scope list_scope.

(** Results of running Python: [None] is an uncaught exception. *)
Definition bind {A B : Type} (m : option A) (k : A -> option B) : option B :=
  match m with
  | Some a => k a
  | None => None
  end.

Notation "x <- m ;; k" := (bind m (fun x => k))
  (at level 61, m at next level, right associativity).

(** A printed number read back: [NaN] and [Infinity] are unbound names. *)
Definition lit (n : number) : option Q :=
  match n with
  | Num q => Some q
  | _ => None
  end.

Fixpoint lits (ns : list number) : option (list Q) :=
  match ns with
  | [] => Some []
  | n :: rest => q <- lit n ;; qs <- lits rest ;; Some (q :: qs)
  end.

(** [range(steps)]: a type error unless [steps] is an integer. *)
Definition range (steps : Q) : option (list Z) :=
  if Qeq_bool steps (inject_Z (Qfloor steps))
  then Some (upto 0 (Z.to_nat (Qfloor steps)))
  else None.

Record Point : Type := pt { px : Q; py : Q; pz : Q }.

(** The plane variable a cylinder of [create_block] is built on. *)
Inductive PlaneName : Type :=
| plane | plane_x | plane_y
| plane_g1 | plane_g2 | plane_g3 | plane_g4
| plane_tx | plane_ty | plane_bx | plane_by.

(** [rs.AddCylinder(rs.PlaneFromNormal(origin, normal), height, radius)] *)
Record Cylinder : Type := AddCylinder {
  on_plane : PlaneName;
  origin : Point;
  normal : Point;
  cyl_height : Q;
  cyl_radius : Q
}.

(** What [create_block] hands to [rs.BooleanDifference]. *)
Record Block : Type := BooleanDifference {
  base_id : list Point;   (* rs.AddBox([c1, ..., c8]) *)
  cutters : list Cylinder
}.

Section Script.

Variable sc : RhinoScript.

(** The body of [for i in range(steps)]. *)
Definition level (cx height offset step_size groove_offset cross_length
    radius : Q) (i : Z) (cutters : list Cylinder) : option (list Cylinder) :=
  let z_pos := (- height) / 2 + offset + inject_Z i * step_size in
  let cutters := cutters ++
    [AddCylinder plane_x (pt (cx - 40) 0 z_pos) (pt 1 0 0) cross_length radius]
    in
  let cutters := cutters ++
    [AddCylinder plane_y (pt cx (- (40)) z_pos) (pt 0 1 0) cross_length radius]
    in
  guard <- lit (lit_level_guard sc) ;;
  if Qltb 0 guard then
    Some (cutters ++
      [AddCylinder plane_g1 (pt (cx - 40) groove_offset z_pos) (pt 1 0 0)
         cross_length radius;
       AddCylinder plane_g2 (pt (cx - 40) (- groove_offset) z_pos) (pt 1 0 0)
         cross_length radius;
       AddCylinder plane_g3 (pt (cx + groove_offset) (- (40)) z_pos) (pt 0 1 0)
         cross_length radius;
       AddCylinder plane_g4 (pt (cx - groove_offset) (- (40)) z_pos) (pt 0 1 0)
         cross_length radius])
  else Some cutters.

Fixpoint for_in (body : Z -> list Cylinder -> option (list Cylinder))
    (r : list Z) (cutters : list Cylinder) : option (list Cylinder) :=
  match r with
  | [] => Some cutters
  | i :: rest => cutters <- body i cutters ;; for_in body rest cutters
  end.

(** The part of [create_block] under [# Top/Bottom Grooves]. *)
Definition end_cutters (cx height cross_length radius : Q)
    (cutters : list Cylinder) : option (list Cylinder) :=
  guard <- lit (lit_ends_guard sc) ;;
  if Qltb 0 guard then
    d <- lit (lit_tb_depth sc) ;;
    rad <- lit (lit_tb_radius sc) ;;
    let tb_offset := height / 2 - d + rad in
    Some (cutters ++
      [AddCylinder plane_tx (pt (cx - 40) 0 tb_offset) (pt 1 0 0)
         cross_length radius;
       AddCylinder plane_ty (pt cx (- (40)) tb_offset) (pt 0 1 0)
         cross_length radius;
       AddCylinder plane_bx (pt (cx - 40) 0 (- tb_offset)) (pt 1 0 0)
         cross_length radius;
       AddCylinder plane_by (pt cx (- (40)) (- tb_offset)) (pt 0 1 0)
         cross_length radius])
  else Some cutters.

(** [def create_block(num_holes, x_offset)] *)
Definition create_block (num_holes x_offset : Q) : option Block :=
  width <- lit (lit_width sc) ;;
  depth <- lit (lit_depth sc) ;;
  per_hole <- lit (lit_height_per_hole sc) ;;
  let height := num_holes * per_hole in
  let cx := x_offset in
  let cy := 0 in
  let cz := 0 in
  let c1 := pt (cx - width / 2) (cy - depth / 2) (cz - height / 2) in
  let c2 := pt (cx + width / 2) (cy - depth / 2) (cz - height / 2) in
  let c3 := pt (cx + width / 2) (cy + depth / 2) (cz - height / 2) in
  let c4 := pt (cx - width / 2) (cy + depth / 2) (cz - height / 2) in
  let c5 := pt (cx - width / 2) (cy - depth / 2) (cz + height / 2) in
  let c6 := pt (cx + width / 2) (cy - depth / 2) (cz + height / 2) in
  let c7 := pt (cx + width / 2) (cy + depth / 2) (cz + height / 2) in
  let c8 := pt (cx - width / 2) (cy + depth / 2) (cz + height / 2) in
  let base_id := [c1; c2; c3; c4; c5; c6; c7; c8] in
  radius <- lit (lit_radius sc) ;;
  let base_pt := pt cx 0 ((- height) / 2 - 50) in
  let cyl_v := AddCylinder plane base_pt (pt 0 0 1) (height + 100) radius in
  let cutters := [cyl_v] in
  let steps := num_holes in
  offset <- lit (lit_offset sc) ;;
  step_size <- lit (lit_step_size sc) ;;
  groove_offset <- lit (lit_groove_offset sc) ;;
  let cross_length := 80 in
  r <- range steps ;;
  cutters <-
    for_in (level cx height offset step_size groove_offset cross_length radius)
           r cutters ;;
  cutters <- end_cutters cx height cross_length radius cutters ;;
  Some (BooleanDifference base_id cutters).

(** [for i, h in enumerate(blocks)] of [main], from index [i]. *)
Fixpoint enumerate_blocks (spacing : Q) (i : Z) (blocks : list Q)
    (doc : list Block) : option (list Block) :=
  match blocks with
  | [] => Some doc
  | h :: rest =>
      let x_pos := inject_Z i * spacing in
      b <- create_block h x_pos ;;
      enumerate_blocks spacing (i + 1) rest (doc ++ [b])
  end.

(** [def main()]: the blocks added to the document. *)
Definition main : option (list Block) :=
  blocks <- lits (lit_blocks sc) ;;
  spacing <- lit (lit_spacing sc) ;;
  enumerate_blocks spacing 0 blocks [].

End Script.

End Py.

(** ** Reading a generated block *)

Open Scope list_scope.

(** The four kinds of cutter of the layout, and the box they cut. *)
Inductive Family : Type :=
| Vertical | Through | SideGroove | EndGroove | TheBox.

Definition Family_eqb (a b : Family) : bool :=
  match a, b with
  | Vertical, Vertical | Through, Through | SideGroove, SideGroove
  | EndGroove, EndGroove | TheBox, TheBox => true
  | _, _ => false
  end.

Definition family (n : BrushName) : Family :=
  match n with
  | boxBrush => TheBox
  | vCylBrush => Vertical
  | xBrush | zBrush => Through
  | fG | bG | rG | lG => SideGroove
  | topX | topZ | botX | botZ => EndGroove
  end.

Definition plane_family (n : Py.PlaneName) : Family :=
  match n with
  | Py.plane => Vertical
  | Py.plane_x | Py.plane_y => Through
  | Py.plane_g1 | Py.plane_g2 | Py.plane_g3 | Py.plane_g4 => SideGroove
  | Py.plane_tx | Py.plane_ty | Py.plane_bx | Py.plane_by => EndGroove
  end.

(** How many brushes of a family a list holds. *)
Definition count (f : Family) (bs : list Brush) : nat :=
  List.length (filter (fun b => Family_eqb (family (name b)) f) bs).

Definition count_py (f : Family) (cs : list Py.Cylinder) : nat :=
  List.length
    (filter (fun c => Family_eqb (plane_family (Py.on_plane c)) f) cs).

(** How often the hole loop runs its body. *)
Definition trips (holes : number) : nat :=
  match holes with
  | Num q => Z.to_nat (Qceiling q)
  | _ => 0%nat
  end.

Section BlockLayout.

Variables r d : number.

(** The brushes one hole level subtracts. *)
Definition level_brushes (xOffset boxHeight sideGrooveOffset : number)
    (i : Z) : list Brush :=
  cut (hole_level r d xOffset boxHeight sideGrooveOffset i
         (mkSolid (mkBrush boxBrush (BoxGeometry NaN NaN NaN) no_turn
                           (vec3 NaN NaN NaN)) [])).

Definition end_brushes (xOffset topBottomGrooveOffset : number) : list Brush :=
  cut (end_grooves r d xOffset topBottomGrooveOffset
         (mkSolid (mkBrush boxBrush (BoxGeometry NaN NaN NaN) no_turn
                           (vec3 NaN NaN NaN)) [])).

(** The block of [holes] levels at position [index], in closed form. *)
Definition block_of (holes : number) (index : Z) : Mesh :=
  let boxHeight := (holes * HEIGHT_PER_HOLE)%js in
  let xOffset := (of_Z index * BATCH_SPACING)%js in
  mkSolid
    (mkBrush boxBrush (BoxGeometry BOX_WIDTH boxHeight BOX_DEPTH) no_turn
             (vec3 xOffset (of_Z 0) (of_Z 0)))
    (mkBrush vCylBrush
       (CylinderGeometry r r (boxHeight + of_Z 20)%js SEGMENTS) no_turn
       (vec3 xOffset (of_Z 0) (of_Z 0))
     :: flat_map
          (level_brushes xOffset boxHeight
             (BOX_WIDTH / of_Z 2 - d + r)%js)
          (upto 0 (trips holes))
     ++ end_brushes xOffset (boxHeight / of_Z 2 - d + r)%js).

End BlockLayout.

(** ** Cutters, in the frame of the preview

    The preview has its long axis along Y; the script has it along Z and
    has the preview's Z as its Y. *)

Inductive Axis : Type := AxisX | AxisY | AxisZ.

Section Frame.

Local Open Scope Q_scope.

Record Cutter : Type := mkCutter {
  axis : Axis;
  centre_x : Q;
  centre_y : Q;
  centre_z : Q;
  radius : Q;
  length : Q
}.

(** A cylinder brush: a [CylinderGeometry] lies along Y, centred on the
    brush position, before it is turned. *)
Definition brush_cutter (b : Brush) : option Cutter :=
  match geometry b, position b with
  | CylinderGeometry (Num rt) _ (Num h) _, vec3 (Num x) (Num y) (Num z) =>
      Some (mkCutter
              match rotation b with
              | no_turn => AxisY
              | turn_z => AxisX
              | turn_x => AxisZ
              end
              x y z rt h)
  | _, _ => None
  end.

(** A cylinder of the script: it starts on its plane and runs along the
    normal. *)
Definition cylinder_cutter (c : Py.Cylinder) : option Cutter :=
  let o := Py.origin c in
  let h := Py.cyl_height c in
  let n := Py.normal c in
  let mid := Py.pt (Py.px o + Py.px n * (h / 2)) (Py.py o + Py.py n * (h / 2))
                   (Py.pz o + Py.pz n * (h / 2)) in
  let along a b c' :=
    Qeq_bool (Py.px n) a && Qeq_bool (Py.py n) b && Qeq_bool (Py.pz n) c' in
  let mk a := Some (mkCutter a (Py.px mid) (Py.pz mid) (Py.py mid)
                             (Py.cyl_radius c) h) in
  if along 1 0 0 then mk AxisX
  else if along 0 1 0 then mk AxisZ
  else if along 0 0 1 then mk AxisY
  else None.

Definition same_placement (a b : Cutter) : Prop :=
  axis a = axis b /\ centre_x a == centre_x b /\ centre_y a == centre_y b /\
  centre_z a == centre_z b /\ radius a == radius b.

(** The plane of the script a brush of the preview corresponds to. *)
Definition plane_of (n : BrushName) : option Py.PlaneName :=
  match n with
  | boxBrush => None
  | vCylBrush => Some Py.plane
  | xBrush => Some Py.plane_x
  | zBrush => Some Py.plane_y
  | fG => Some Py.plane_g1
  | bG => Some Py.plane_g2
  | rG => Some Py.plane_g3
  | lG => Some Py.plane_g4
  | topX => Some Py.plane_tx
  | topZ => Some Py.plane_ty
  | botX => Some Py.plane_bx
  | botZ => Some Py.plane_by
  end.

(** A brush and a script cylinder are the same cutter: same role, axis,
    centre and radius; same length too, but for the vertical hole, where
    both only have to pass through the whole box of height [h]. *)
Definition cutter_agrees (h : Q) (b : Brush) (c : Py.Cylinder) : Prop :=
  plane_of (name b) = Some (Py.on_plane c) /\
  exists p q,
    brush_cutter b = Some p /\ cylinder_cutter c = Some q /\
    same_placement p q /\
    match name b with
    | vCylBrush => h < length p /\ h < length q
    | _ => length p == length q
    end.

(** The box of the script, by its eight corners, is the box of the
    preview: [w] along X, [h] along the long axis, [dp] across. *)
Definition box_agrees (m : Mesh) (b : Py.Block) : Prop :=
  exists w h dp x,
    geometry (base m) = BoxGeometry (Num w) (Num h) (Num dp) /\
    position (base m) = vec3 (Num x) (of_Z 0) (of_Z 0) /\
    Forall2 (fun p s =>
               Py.px p == x + fst (fst s) * (w / 2) /\
               Py.py p == snd (fst s) * (dp / 2) /\
               Py.pz p == snd s * (h / 2))
            (Py.base_id b)
            [(- (1), - (1), - (1)); (1, - (1), - (1)); (1, 1, - (1));
             (- (1), 1, - (1)); (- (1), - (1), 1); (1, - (1), 1);
             (1, 1, 1); (- (1), 1, 1)]%Q /\
    Forall2 (cutter_agrees h) (cut m) (Py.cutters b).

End Frame.

(** ** The sessions of the tool *)

Inductive Event : Type :=
| ModeChange (value : string)
| HolesInput (value : string)
| BatchInput (value : string)
| RadiusInput (value : string)
| DepthInput (value : string)
| TimerFires.

Definition clear_timer (st : State) : State :=
  {| mode := mode st; numHoles := numHoles st; batchList := batchList st;
     drillRadius := drillRadius st; grooveDepth := grooveDepth st;
     currentMeshes := currentMeshes st; debounceTimer := false |}.

Definition handle (e : Event) (st : State) : option State :=
  match e with
  | ModeChange v => Some (on_mode_change v st)
  | HolesInput v => Some (on_holes_input v st)
  | BatchInput v => Some (on_batch_input v st)
  | RadiusInput v => Some (on_radius_input v st)
  | DepthInput v => Some (on_depth_input v st)
  | TimerFires =>
      if debounceTimer st then generateModel (clear_timer st) else Some st
  end.

Inductive reachable : State -> Prop :=
| reach_initial : reachable initial
| reach_handle : forall st e st',
    reachable st -> handle e st = Some st' -> reachable st'.

(** A hole count as [parseInt] and the clamps leave it. *)
Definition is_integer (n : number) : Prop := exists z : Z, n = of_Z z.

Definition positive_integer (n : number) : Prop :=
  exists z : Z, n = of_Z z /\ 0 < z.

(** The same parameters: two states that differ at most in the meshes on
    display and in the timer. *)
Definition same_parameters (a b : State) : Prop :=
  mode a = mode b /\ numHoles a = numHoles b /\ batchList a = batchList b /\
  drillRadius a = drillRadius b /\ grooveDepth a = grooveDepth b.

(** ** The range of doubles

    [parseInt] above reads the mathematical value of the digits; the
    language returns the double of that value.  Rounding apart, the
    conversion changes one thing: a value of magnitude [double_limit]
    or more (the largest double and half a step) becomes an infinity.
    (An engine may read the decimal digits after the twentieth as
    zeros, which moves that boundary by less than one part in
    [10 ^ 19]; the texts used below are far from it.)  The listeners of
    the two hole count fields are read again here with the conversion
    in place, so a count too long for a double is stored as JavaScript
    stores it. *)
Definition double_limit : Z := 2 ^ 1024 - 2 ^ 970.

Definition to_double (a : number) : number :=
  match a with
  | Num q =>
      if Qle_bool (inject_Z double_limit) q then Inf false
      else if Qle_bool q (inject_Z (- double_limit)) then Inf true
      else Num q
  | _ => a
  end.

Definition parseInt_double (s : string) : number := to_double (parseInt s).

Definition parse_batch_double (str : string) : list number :=
  filter (fun n => negb (isNaN n) && (n >? of_Z 0)%js)
         (map (fun s => parseInt_double (trim s)) (split_comma str)).

Definition on_batch_input_double (value : string) (st : State) : State :=
  let parts := parse_batch_double value in
  let st := if (0 <? Z.of_nat (List.length parts)) then set_batchList parts st
            else st in
  debouncedGenerate st.


(** The batch list in words: of the entries read, those that are a
    positive integer or [Infinity], in their order. *)
Fixpoint keep_positive_numbers (ns : list number) : list number :=
  match ns with
  | [] => []
  | Num q :: rest =>
      if Qeq_bool q (inject_Z (Qfloor q)) && (0 <? Qfloor q)
      then Num q :: keep_positive_numbers rest
      else keep_positive_numbers rest
  | Inf false :: rest => Inf false :: keep_positive_numbers rest
  | _ :: rest => keep_positive_numbers rest
  end.

(** An entry of 310 digits: a one and 309 zeros. *)
Definition long_entry : string :=
  String "1" (string_of_list_ascii (repeat "0"%char 309)).

(** Does the text, after white space and a sign, begin with a decimal
    digit?  With a digit, a point and a digit, or [Infinity]? *)
Definition is_digit (c : ascii) : bool :=
  match radix_digit 10 c with Some _ => true | None => false end.

Definition begins_with_digit (s : string) : bool :=
  match snd (take_sign (skip_space (list_ascii_of_string s))) with
  | c :: _ => is_digit c
  | [] => false
  end.

Definition begins_with_decimal (s : string) : bool :=
  match snd (take_sign (skip_space (list_ascii_of_string s))) with
  | c :: t =>
      is_digit c
      || (Ascii.eqb c "."%char
          && match t with c' :: _ => is_digit c' | [] => false end)
      || starts_with (list_ascii_of_string "Infinity") (c :: t)
  | [] => false
  end.

(** The meshes of a list of hole counts, the first at position [index]. *)
Fixpoint blocks_from (r d : number) (blocks : list number) (index : Z)
    : list Mesh :=
  match blocks with
  | [] => []
  | holes :: rest => block_of r d holes index :: blocks_from r d rest (index + 1)
  end.

(** The hole loop ends on every number but [+Infinity]. *)
Definition ends (holes : number) : Prop := holes <> Inf false.

(** ** The blocks of the script, in closed form *)

Section ScriptLayout.

Local Open Scope Q_scope.

Variable sc : RhinoScript.

Definition or_nil {A : Type} (o : option (list A)) : list A :=
  match o with
  | Some l => l
  | None => []
  end.

(** The cylinders one pass of the loop appends. *)
Definition level_cylinders (cx height offset step_size groove_offset
    cross_length radius : Q) (i : Z) : list Py.Cylinder :=
  or_nil (Py.level sc cx height offset step_size groove_offset cross_length
                   radius i []).

Definition end_cylinders (cx height cross_length radius : Q)
    : list Py.Cylinder :=
  or_nil (Py.end_cutters sc cx height cross_length radius []).

(** The block [create_block(n, x)] adds when the radius printed is [r] and
    the groove offset printed is [g]. *)
Definition script_block (r g : Q) (n : Z) (x : Q) : Py.Block :=
  let width := inject_Z 20 in
  let depth := inject_Z 20 in
  let height := inject_Z n * inject_Z 20 in
  Py.BooleanDifference
    [Py.pt (x - width / 2) (0 - depth / 2) (0 - height / 2);
     Py.pt (x + width / 2) (0 - depth / 2) (0 - height / 2);
     Py.pt (x + width / 2) (0 + depth / 2) (0 - height / 2);
     Py.pt (x - width / 2) (0 + depth / 2) (0 - height / 2);
     Py.pt (x - width / 2) (0 - depth / 2) (0 + height / 2);
     Py.pt (x + width / 2) (0 - depth / 2) (0 + height / 2);
     Py.pt (x + width / 2) (0 + depth / 2) (0 + height / 2);
     Py.pt (x - width / 2) (0 + depth / 2) (0 + height / 2)]
    (Py.AddCylinder Py.plane (Py.pt x 0 ((- height) / 2 - 50)) (Py.pt 0 0 1)
                    (height + 100) r
     :: flat_map
          (level_cylinders x height (inject_Z 10) (inject_Z 20) g 80 r)
          (upto 0 (Z.to_nat n))
     ++ end_cylinders x height 80 r).

(** The blocks [main] adds for the hole counts [ns], the first at index
    [i]. *)
Fixpoint script_blocks (r g : Q) (ns : list Z) (i : Z) : list Py.Block :=
  match ns with
  | [] => []
  | n :: rest =>
      script_block r g n (inject_Z i * inject_Z 40)
      :: script_blocks r g rest (i + 1)
  end.

End ScriptLayout.

(** The height of a box given by its corners [c1 ... c8]. *)
Definition corner_height (b : Py.Block) : option Q :=
  match Py.base_id b with
  | [c1; _; _; _; c5; _; _; _] => Some (Py.pz c5 - Py.pz c1)%Q
  | _ => None
  end.

(** ** Where a groove cutter sits *)

Section Grooves.

Local Open Scope Q_scope.

(** The axis of the cutter is moved off the block axis, which is at [x0],
    by [off] along one of the four lateral directions. *)
Definition side_groove_at (x0 off : Q) (c : Cutter) : Prop :=
  exists sx sz : Q,
    In (sx, sz) [(1, 0); (- (1), 0); (0, 1); (0, - (1))] /\
    centre_x c == x0 + sx * off /\ centre_z c == sz * off.

(** The cutter is centred on the block axis, [tb] up or down the long
    axis. *)
Definition end_groove_at (x0 tb : Q) (c : Cutter) : Prop :=
  centre_x c == x0 /\ centre_z c == 0 /\
  (centre_y c == tb \/ centre_y c == - tb).

End Grooves.

(** ** Blocks and their hole levels *)

(** One [xBrush] is subtracted per hole level. *)
Definition is_xBrush (b : Brush) : bool :=
  match name b with xBrush => true | _ => false end.

Definition hole_levels (m : Mesh) : nat :=
  List.length (filter is_xBrush (cut m)).

(** One cylinder on [plane_x] is added per hole level. *)
Definition on_plane_x (c : Py.Cylinder) : bool :=
  match Py.on_plane c with Py.plane_x => true | _ => false end.

Definition script_levels (b : Py.Block) : nat :=
  List.length (filter on_plane_x (Py.cutters b)).

(** The horizontal centre of a block: of the box brush, and of the box
    the script builds from the corners [c1] and [c2]. *)
Definition block_centre (m : Mesh) : number := vx (position (base m)).

Definition script_centre (b : Py.Block) : option Q :=
  match Py.base_id b with
  | c1 :: c2 :: _ => Some ((Py.px c1 + Py.px c2) / 2)%Q
  | _ => None
  end.

(** What every session keeps true of the hole counts. *)
Definition sane (st : State) : Prop :=
  (numHoles st = NaN \/ exists z : Z, numHoles st = of_Z z /\ 1 <= z) /\
  Forall positive_integer (batchList st) /\
  batchList st <> [].

(** Every cylinder brush of a mesh has radius [r], top and bottom. *)
Definition drilled_with (r : number) (m : Mesh) : Prop :=
  Forall (fun b => exists h, geometry b = CylinderGeometry r r h SEGMENTS)
         (cut m).

Definition no_grooves (m : Mesh) : Prop :=
  count SideGroove (cut m) = 0%nat /\ count EndGroove (cut m) = 0%nat.

Definition script_no_grooves (b : Py.Block) : Prop :=
  count_py SideGroove (Py.cutters b) = 0%nat /\
  count_py EndGroove (Py.cutters b) = 0%nat.

(** A number that is zero or negative. *)
Definition zero_or_negative (v : number) : Prop :=
  match v with
  | Num q => (q <= 0)%Q
  | Inf negative => negative = true
  | NaN => False
  end.

(** ** More of the layout *)

(** [forEach((holes, index) => ...)] and [enumerate(blocks)]: the entries
    with their index, the first at [i]. *)
Fixpoint indexed {A : Type} (i : Z) (l : list A) : list (Z * A) :=
  match l with
  | [] => []
  | a :: t => (i, a) :: indexed (i + 1) t
  end.

Section Extents.

Local Open Scope Q_scope.

(** The coordinate of a point along an axis of the preview. *)
Definition along (a : Axis) (x y z : Q) : Q :=
  match a with
  | AxisX => x
  | AxisY => y
  | AxisZ => z
  end.

(** The two ends of a cutter on its own axis. *)
Definition cutter_low (c : Cutter) : Q :=
  along (axis c) (centre_x c) (centre_y c) (centre_z c) - length c / 2.

Definition cutter_high (c : Cutter) : Q :=
  along (axis c) (centre_x c) (centre_y c) (centre_z c) + length c / 2.

(** A cutter sticks out of the box centred at [(x0, 0, 0)], [w] wide,
    [h] high and [dp] deep, by at least [margin] at both ends of its
    axis. *)
Definition passes_through (margin x0 w h dp : Q) (c : Cutter) : Prop :=
  cutter_low c + margin <= along (axis c) (x0 - w / 2) (- (h / 2)) (- (dp / 2))
  /\
  along (axis c) (x0 + w / 2) (h / 2) (dp / 2) + margin <= cutter_high c.

(** The box of a mesh: where it starts and ends along X. *)
Definition box_left (m : Mesh) : option Q :=
  match geometry (base m), position (base m) with
  | BoxGeometry (Num w) _ _, vec3 (Num x) _ _ => Some (x - w / 2)
  | _, _ => None
  end.

Definition box_right (m : Mesh) : option Q :=
  match geometry (base m), position (base m) with
  | BoxGeometry (Num w) _ _, vec3 (Num x) _ _ => Some (x + w / 2)
  | _, _ => None
  end.

(** The same for the box of the script, from its corners [c1] and [c2]. *)
Definition script_left (b : Py.Block) : option Q :=
  match Py.base_id b with
  | c1 :: _ => Some (Py.px c1)
  | _ => None
  end.

Definition script_right (b : Py.Block) : option Q :=
  match Py.base_id b with
  | _ :: c2 :: _ => Some (Py.px c2)
  | _ => None
  end.

End Extents.


(** The middle of the [i]-th cell, counted from the bottom, of a box of
    [n] cells each [20] high and centred on zero. *)
Definition cell_middle (n i : Z) : Q :=
  (- (inject_Z n * inject_Z 20 / inject_Z 2)
   + inject_Z 20 * inject_Z i + inject_Z 10)%Q.

(** The second cutter is the first one mirrored in the plane across the
    middle of the long axis. *)
Definition mirrored (p p' : Cutter) : Prop :=
  axis p' = axis p /\
  (centre_x p' == centre_x p)%Q /\ (centre_y p' == - centre_y p)%Q /\
  (centre_z p' == centre_z p)%Q /\
  (radius p' == radius p)%Q /\ (length p' == length p)%Q.

(** ** The mesh export: [downloadOBJ] *)

(** [m.clone()]: a mesh with the same geometry. *)
Definition clone (m : Mesh) : Mesh := m.

(** The group [downloadOBJ] hands to the exporter: a clone of every mesh
    on display, in order. *)
Definition downloadOBJ (st : State) : list Mesh :=
  map clone (currentMeshes st).

(** ** The page in time: [debouncedGenerate], [downloadFile] and the timeouts *)

(** What the callback of a timeout does.  The page sets two kinds: the
    one of [debouncedGenerate] calls [generateModel()]; the one of
    [downloadFile] removes the link of the download and revokes its
    address. *)
Inductive Task : Type :=
| Regenerate
| RemoveLink.

(** A pending timeout: its handle, the time from which its callback may
    run, and what the callback does. *)
Record Timeout : Type := mkTimeout {
  handle_of : nat;
  due : Z;
  task : Task
}.

(** The parameters, the time of the last event, the timeouts of the
    window that are pending, the handle the next [setTimeout] returns,
    and the variable [debounceTimer]. *)
Record Timed : Type := mkTimed {
  page : State;
  now : Z;
  timeouts : list Timeout;
  next_handle : nat;
  timer_variable : option nat
}.

(** [clearTimeout(h)] *)
Definition clearTimeout (h : option nat) (ts : list Timeout)
    : list Timeout :=
  match h with
  | Some n => filter (fun x => negb (Nat.eqb (handle_of x) n)) ts
  | None => ts
  end.

(** [setTimeout(callback, delay)] at time [t]: the timeouts then, and the
    handle returned. *)
Definition setTimeout (callback : Task) (delay t : Z) (next : nat)
    (ts : list Timeout) : list Timeout * nat :=
  (ts ++ [mkTimeout next (t + delay) callback], next).

Inductive Happening : Type :=
| Input (e : Event)      (* a listener of [init] runs *)
| Callback (h : nat)     (* the callback of the debounce timeout [h] runs *)
| Download               (* a click on one of the two download buttons *)
| Removal (h : nat).     (* the callback of the download timeout [h] runs *)

Definition is_input (e : Event) : bool :=
  match e with
  | TimerFires => false
  | _ => true
  end.

Definition pending (h : nat) (ts : list Timeout) : option Timeout :=
  find (fun x => Nat.eqb (handle_of x) h) ts.

(** The timeouts that wait to regenerate. *)
Definition is_regeneration (x : Timeout) : bool :=
  match task x with
  | Regenerate => true
  | RemoveLink => false
  end.

Definition regenerations (ts : list Timeout) : list Timeout :=
  filter is_regeneration ts.

(** [downloadFile(blob, filename)] at time [t], the last step of
    [downloadOBJ] and of [downloadRhinoScript]: the file goes out and a
    timeout is set, [100] later, to remove the link.  The parameters
    and [debounceTimer] are not touched. *)
Definition downloadFile (t : Z) (s : Timed) : Timed :=
  let (ts, _) := setTimeout RemoveLink 100 t (next_handle s) (timeouts s) in
  mkTimed (page s) t ts (S (next_handle s)) (timer_variable s).

(** What happens at time [t].  An input runs its listener, which ends in
    [debouncedGenerate()]: the timeout in [debounceTimer] is cleared and
    a new one is set, [300] later.  A click on a download button ends in
    [downloadFile].  The callback of a pending timeout runs no sooner
    than its time, once: the one of a debounce timeout calls
    [generateModel()], the one of a download leaves the parameters as
    they are.  [None]: this cannot happen at [t]. *)
Definition at_time (t : Z) (what : Happening) (s : Timed) : option Timed :=
  if t <? now s then None
  else
    match what with
    | Input e =>
        if is_input e then
          match handle e (page s) with
          | Some st =>
              let ts := clearTimeout (timer_variable s) (timeouts s) in
              let (ts, h) := setTimeout Regenerate 300 t (next_handle s) ts in
              Some (mkTimed st t ts (S (next_handle s)) (Some h))
          | None => None
          end
        else None
    | Callback h =>
        match pending h (timeouts s) with
        | Some x =>
            if is_regeneration x && (due x <=? t) then
              match generateModel (clear_timer (page s)) with
              | Some st =>
                  Some (mkTimed st t (clearTimeout (Some h) (timeouts s))
                                (next_handle s) (timer_variable s))
              | None => None
              end
            else None
        | None => None
        end
    | Download => Some (downloadFile t s)
    | Removal h =>
        match pending h (timeouts s) with
        | Some x =>
            if negb (is_regeneration x) && (due x <=? t) then
              Some (mkTimed (page s) t (clearTimeout (Some h) (timeouts s))
                            (next_handle s) (timer_variable s))
            else None
        | None => None
        end
    end.

Fixpoint run (events : list (Z * Happening)) (s : Timed) : option Timed :=
  match events with
  | [] => Some s
  | (t, e) :: rest =>
      match at_time t e s with
      | Some s' => run rest s'
      | None => None
      end
  end.

(** The page at time [0], when [init(); debouncedGenerate()] have run. *)
Definition loaded : Timed :=
  mkTimed initial 0 [mkTimeout O 300 Regenerate] 1%nat (Some O).

Definition is_Input (what : Happening) : bool :=
  match what with
  | Input _ => true
  | _ => false
  end.

(** What the timed runs keep true: time does not go back; of the
    timeouts that wait to regenerate none or one is pending, the one in
    [debounceTimer], and it is due [300] after the start and after every
    input so far. *)
Definition timer_after (past : list (Z * Happening)) (s : Timed) : Prop :=
  0 <= now s /\
  (forall t e, In (t, e) past -> t <= now s) /\
  (regenerations (timeouts s) = [] \/
   exists h t0,
     regenerations (timeouts s) = [mkTimeout h t0 Regenerate] /\
     timer_variable s = Some h /\
     300 <= t0 /\
     forall t e, In (t, e) past -> is_Input e = true -> t + 300 <= t0).

(** ** The page and its displays: [updateModeUI], [updateHeightDisplay] *)

(** What a display element holds. *)
Inductive Content : Type :=
| as_loaded                   (* what the document came with *)
| number_text (n : number)    (* textContent = n *)
| literal_text (s : string).  (* textContent = "..." *)

Record Page : Type := mkPage {
  vars : State;
  singleControls_display : option string;  (* singleControls.style.display *)
  batchControls_display : option string;   (* batchControls.style.display *)
  heightDisplay : Content;                 (* heightDisplay.textContent *)
  holesValDisplay : Content                (* holesValDisplay.textContent *)
}.

Definition with_vars (f : State -> State) (p : Page) : Page :=
  mkPage (f (vars p)) (singleControls_display p) (batchControls_display p)
         (heightDisplay p) (holesValDisplay p).

Definition updateHeightDisplay (p : Page) : Page :=
  if String.eqb (mode (vars p)) "single" then
    let h := (numHoles (vars p) * HEIGHT_PER_HOLE)%js in
    mkPage (vars p) (singleControls_display p) (batchControls_display p)
           (number_text h) (holesValDisplay p)
  else
    mkPage (vars p) (singleControls_display p) (batchControls_display p)
           (literal_text "Variable") (holesValDisplay p).

Definition updateModeUI (p : Page) : Page :=
  let p :=
    if String.eqb (mode (vars p)) "single" then
      mkPage (vars p) (Some "block") (Some "none")
             (heightDisplay p) (holesValDisplay p)
    else
      mkPage (vars p) (Some "none") (Some "block")
             (heightDisplay p) (holesValDisplay p) in
  updateHeightDisplay p.

(** The listeners of [init], with the displays they refresh. *)
Definition page_mode_change (value : string) (p : Page) : Page :=
  let p := with_vars (set_mode value) p in
  let p := updateModeUI p in
  with_vars debouncedGenerate p.

Definition page_holes_input (value : string) (p : Page) : Page :=
  let val := parseInt value in
  let val := if (val <? of_Z 1)%js then of_Z 1 else val in
  let p := with_vars (set_numHoles val) p in
  let p := mkPage (vars p) (singleControls_display p) (batchControls_display p)
                  (heightDisplay p) (number_text (numHoles (vars p))) in
  let p := updateHeightDisplay p in
  with_vars debouncedGenerate p.

Definition page_batch_input (value : string) (p : Page) : Page :=
  let parts := parse_batch value in
  let p := if (0 <? Z.of_nat (List.length parts))
           then with_vars (set_batchList parts) p else p in
  let p := updateHeightDisplay p in
  with_vars debouncedGenerate p.

Definition page_handle (e : Event) (p : Page) : option Page :=
  match e with
  | ModeChange v => Some (page_mode_change v p)
  | HolesInput v => Some (page_holes_input v p)
  | BatchInput v => Some (page_batch_input v p)
  | RadiusInput v => Some (with_vars (on_radius_input v) p)
  | DepthInput v => Some (with_vars (on_depth_input v) p)
  | TimerFires =>
      option_map (fun st => with_vars (fun _ => st) p)
                 (handle TimerFires (vars p))
  end.

(** The page once [init()], which ends in [updateModeUI()], and
    [debouncedGenerate()] have run. *)
Definition initial_page : Page :=
  with_vars debouncedGenerate
    (updateModeUI (mkPage initial None None as_loaded as_loaded)).

Inductive page_reachable : Page -> Prop :=
| page_initial : page_reachable initial_page
| page_step : forall p e p',
    page_reachable p -> page_handle e p = Some p' -> page_reachable p'.

(** The displays tell what the parameters are. *)
Definition displays_agree (p : Page) : Prop :=
  (mode (vars p) = "single" ->
   singleControls_display p = Some "block" /\
   batchControls_display p = Some "none" /\
   heightDisplay p = number_text (numHoles (vars p) * HEIGHT_PER_HOLE)%js) /\
  (mode (vars p) <> "single" ->
   singleControls_display p = Some "none" /\
   batchControls_display p = Some "block" /\
   heightDisplay p = literal_text "Variable") /\
  (holesValDisplay p = as_loaded \/
   holesValDisplay p = number_text (numHoles (vars p))).

(** The listeners run one after the other, with no regeneration in
    between. *)
Fixpoint inputs (es : list Event) (st : State) : option State :=
  match es with
  | [] => Some st
  | e :: rest =>
      if is_input e then
        match handle e st with
        | Some st' => inputs rest st'
        | None => None
        end
      else None
  end.

Section Across.

Local Open Scope Q_scope.

(** A horizontal cutter through the point [(x0 + dx, _, dz)]: it runs
    along X when it is moved along Z and along Z when it is moved along
    X (or along either when it is not moved at all). *)
Definition runs_along_X (x0 dz : Q) (p : Cutter) : Prop :=
  axis p = AxisX /\ centre_x p == x0 /\ centre_z p == dz.

Definition runs_along_Z (x0 dx : Q) (p : Cutter) : Prop :=
  axis p = AxisZ /\ centre_x p == x0 + dx /\ centre_z p == 0.

End Across.

(** Where each cutter runs, by the name the source gives it, in a block
    whose axis is at [x0] and whose side grooves are [off] from the
    axis. *)
Definition brush_runs (nm : BrushName) (x0 off : Q) (p : Cutter) : Prop :=
  match nm with
  | boxBrush => False
  | vCylBrush => axis p = AxisY /\ (centre_x p == x0)%Q /\ (centre_z p == 0)%Q
  | xBrush | topX | botX => runs_along_X x0 0 p
  | zBrush | topZ | botZ => runs_along_Z x0 0 p
  | fG => runs_along_X x0 off p
  | bG => runs_along_X x0 (- off) p
  | rG => runs_along_Z x0 off p
  | lG => runs_along_Z x0 (- off) p
  end.

Definition plane_runs (nm : Py.PlaneName) (x0 off : Q) (p : Cutter) : Prop :=
  match nm with
  | Py.plane => axis p = AxisY /\ (centre_x p == x0)%Q /\ (centre_z p == 0)%Q
  | Py.plane_x | Py.plane_tx | Py.plane_bx => runs_along_X x0 0 p
  | Py.plane_y | Py.plane_ty | Py.plane_by => runs_along_Z x0 0 p
  | Py.plane_g1 => runs_along_X x0 off p
  | Py.plane_g2 => runs_along_X x0 (- off) p
  | Py.plane_g3 => runs_along_Z x0 off p
  | Py.plane_g4 => runs_along_Z x0 (- off) p
  end.

(** The cutter a through-hole or an end groove is paired with: the one
    made right after or right before it, with the other turn. *)
Definition crossing (nm : BrushName) : option BrushName :=
  match nm with
  | xBrush => Some zBrush
  | zBrush => Some xBrush
  | topX => Some topZ
  | topZ => Some topX
  | botX => Some botZ
  | botZ => Some botX
  | _ => None
  end.

Definition crossing_plane (nm : Py.PlaneName) : option Py.PlaneName :=
  match nm with
  | Py.plane_x => Some Py.plane_y
  | Py.plane_y => Some Py.plane_x
  | Py.plane_tx => Some Py.plane_ty
  | Py.plane_ty => Some Py.plane_tx
  | Py.plane_bx => Some Py.plane_by
  | Py.plane_by => Some Py.plane_bx
  | _ => None
  end.

Definition same_centre (p q : Cutter) : Prop :=
  (centre_x p == centre_x q)%Q /\ (centre_y p == centre_y q)%Q /\
  (centre_z p == centre_z q)%Q.

(** A corner of the box centred at [(x0, 0, 0)] in the frame of the
    script: [w] along X, [dp] along Y and [h] along Z. *)
Definition corner_of_box (x0 w h dp : Q) (c : Py.Point) : Prop :=
  ((Py.px c == x0 - w / 2)%Q \/ (Py.px c == x0 + w / 2)%Q) /\
  ((Py.py c == - (dp / 2))%Q \/ (Py.py c == dp / 2)%Q) /\
  ((Py.pz c == - (h / 2))%Q \/ (Py.pz c == h / 2)%Q).


(** * Properties *)

(** ** The built-ins on sample inputs *)

Example parseInt_3 : parseInt "3" = of_Z 3. Proof. reflexivity. Qed.
Example parseInt_3abc : parseInt " 3abc" = of_Z 3. Proof. reflexivity. Qed.
Example parseInt_hex : parseInt "0x1F" = of_Z 31. Proof. reflexivity. Qed.
Example parseInt_neg : parseInt "-12.7" = of_Z (-12). Proof. reflexivity. Qed.
Example parseInt_abc : parseInt "abc" = NaN. Proof. reflexivity. Qed.
Example parseInt_empty : parseInt EmptyString = NaN. Proof. reflexivity. Qed.
Example parseFloat_half : same (parseFloat "0.5") (Num (1 # 2)).
Proof. reflexivity. Qed.
Example parseFloat_exp : same (parseFloat "-2.5e-1x") (Num (- (1 # 4))).
Proof. reflexivity. Qed.
Example parseFloat_dot : parseFloat "." = NaN. Proof. reflexivity. Qed.
Example parseFloat_inf : parseFloat " -Infinity" = Inf true.
Proof. reflexivity. Qed.
Example split_example :
  split_comma "1, 2,,x" = ["1"; " 2"; EmptyString; "x"].
Proof. reflexivity. Qed.
Example trim_example : trim "  a b  " = "a b". Proof. reflexivity. Qed.
Example scenario_runs :
  option_map (fun st => map (fun m => List.length (cut m)) (currentMeshes st))
             (generateModel initial) = Some [35%nat].
Proof. reflexivity. Qed.
Example script_scenario :
  option_map (map (fun b => List.length (Py.cutters b)))
             (Py.main (downloadRhinoScript initial)) = Some [35%nat].
Proof. reflexivity. Qed.

(** ** Numbers *)

Lemma Qltb_true (a b : Q) : Qltb a b = true <-> (a < b)%Q.
Proof.
  unfold Qltb. rewrite negb_true_iff.
  split; intro H.
  - apply Qnot_le_lt. intro L. apply Qle_bool_iff in L. congruence.
  - destruct (Qle_bool b a) eqn:E; [|reflexivity].
    apply Qle_bool_iff in E. exfalso. apply (Qlt_not_le _ _ H E).
Qed.

Lemma Qltb_false (a b : Q) : Qltb a b = false <-> (b <= a)%Q.
Proof.
  unfold Qltb. rewrite negb_false_iff. apply Qle_bool_iff.
Qed.

Lemma Qltb_inject_Z (i : Z) (q : Q) :
  Qltb (inject_Z i) q = (i <? Qceiling q).
Proof.
  destruct (Z.ltb_spec i (Qceiling q)) as [L | L].
  - apply Qltb_true.
    apply Qle_lt_trans with (inject_Z (Qceiling q - 1)).
    + rewrite <- Zle_Qle. lia.
    + apply Qceiling_lt.
  - apply Qltb_false.
    apply Qle_trans with (inject_Z (Qceiling q)).
    + apply Qle_ceiling.
    + rewrite <- Zle_Qle. exact L.
Qed.

Lemma gt_zero_Num (q : Q) : (Num q >? of_Z 0)%js = Qltb 0 q.
Proof. reflexivity. Qed.

(** ** The hole loop *)

Lemma for_lt_Num (body : Z -> Solid -> Solid) (q : Q) :
  forall (k fuel : nat) (i : Z) (acc : Solid),
    Z.to_nat (Qceiling q - i) = k -> (k < fuel)%nat ->
    for_lt fuel i (Num q) body acc
    = Some (fold_left (fun a j => body j a) (upto i k) acc).
Proof.
  induction k as [|k IH]; intros fuel i acc Hk Hf;
    (destruct fuel as [|fuel]; [lia|]); simpl for_lt;
    change (of_Z i <? Num q)%js with (Qltb (inject_Z i) q);
    rewrite Qltb_inject_Z.
  - destruct (Z.ltb_spec i (Qceiling q)); [lia | reflexivity].
  - destruct (Z.ltb_spec i (Qceiling q)); [|lia].
    simpl. apply IH; lia.
Qed.

Lemma for_holes_spec (body : Z -> Solid -> Solid) (holes : number)
    (acc : Solid) :
  ends holes ->
  for_holes holes body acc
  = Some (fold_left (fun a j => body j a) (upto 0 (trips holes)) acc).
Proof.
  unfold ends, for_holes. destruct holes as [| [|] | q]; simpl loop_fuel;
    intro H; try reflexivity; [congruence|].
  apply for_lt_Num; simpl; [f_equal; lia | lia].
Qed.

Lemma hole_level_spec (r d x h s : number) (i : Z) (acc : Solid) :
  hole_level r d x h s i acc
  = mkSolid (base acc) (cut acc ++ level_brushes r d x h s i).
Proof.
  unfold level_brushes, hole_level, evaluate.
  destruct (d >? of_Z 0)%js; simpl; repeat rewrite <- List.app_assoc; reflexivity.
Qed.

Lemma end_grooves_spec (r d x t : number) (acc : Solid) :
  end_grooves r d x t acc
  = mkSolid (base acc) (cut acc ++ end_brushes r d x t).
Proof.
  unfold end_brushes, end_grooves, evaluate.
  destruct (d >? of_Z 0)%js; simpl; repeat rewrite <- List.app_assoc;
    try rewrite List.app_nil_r; destruct acc; reflexivity.
Qed.

Lemma hole_levels_spec (r d x h s : number) (l : list Z) :
  forall acc : Solid,
    fold_left (fun a j => hole_level r d x h s j a) l acc
    = mkSolid (base acc) (cut acc ++ flat_map (level_brushes r d x h s) l).
Proof.
  induction l as [|i l IH]; intro acc; simpl.
  - rewrite List.app_nil_r. destruct acc; reflexivity.
  - rewrite IH, hole_level_spec. simpl. rewrite <- List.app_assoc. reflexivity.
Qed.

Lemma make_block_spec (r d holes : number) (index : Z) :
  ends holes -> make_block r d holes index = Some (block_of r d holes index).
Proof.
  intro H. unfold make_block.
  rewrite (for_holes_spec _ _ _ H), hole_levels_spec, end_grooves_spec.
  unfold block_of, evaluate. simpl. reflexivity.
Qed.

Lemma forEach_block_spec (r d : number) (blocks : list number) :
  Forall ends blocks ->
  forall (index : Z) (meshes : list Mesh),
    forEach_block r d blocks index meshes
    = Some (meshes ++ blocks_from r d blocks index).
Proof.
  induction 1 as [|holes rest Hh Hr IH]; intros index meshes; simpl.
  - rewrite List.app_nil_r. reflexivity.
  - rewrite (make_block_spec _ _ _ _ Hh), IH, <- List.app_assoc. reflexivity.
Qed.

Lemma generateModel_spec (st : State) :
  Forall ends (blocksToMake st) ->
  generateModel st
  = Some (set_currentMeshes
            (blocks_from (drillRadius st) (grooveDepth st) (blocksToMake st) 0)
            st).
Proof.
  intro H. unfold generateModel.
  change (blocksToMake (set_currentMeshes [] st)) with (blocksToMake st).
  simpl. rewrite (forEach_block_spec _ _ _ H). reflexivity.
Qed.

(** ** Counting cutters *)

Lemma count_app (f : Family) (a b : list Brush) :
  count f (a ++ b) = (count f a + count f b)%nat.
Proof. unfold count. rewrite filter_app, length_app. reflexivity. Qed.

Lemma count_flat_map (f : Family) (g : Z -> list Brush) (c : nat) :
  (forall i, count f (g i) = c) ->
  forall l, count f (flat_map g l) = (List.length l * c)%nat.
Proof.
  intros Hg l. induction l as [|i l IH]; simpl; [reflexivity|].
  rewrite count_app, Hg, IH. reflexivity.
Qed.

Lemma length_upto (k : nat) : forall i, List.length (upto i k) = k.
Proof. induction k; intro i; simpl; [|rewrite IHk]; reflexivity. Qed.

Lemma trips_of_Z (n : Z) : trips (of_Z n) = Z.to_nat n.
Proof. unfold trips, of_Z. rewrite Qceiling_Z. reflexivity. Qed.

Lemma ends_of_Z (n : Z) : ends (of_Z n).
Proof. discriminate. Qed.

Lemma count_level (r d x h s : number) (i : Z) (f : Family) :
  count f (level_brushes r d x h s i)
  = match f with
    | Through => 2%nat
    | SideGroove => if (d >? of_Z 0)%js then 4%nat else 0%nat
    | _ => 0%nat
    end.
Proof.
  unfold level_brushes, hole_level.
  destruct (d >? of_Z 0)%js, f; reflexivity.
Qed.

Lemma count_ends (r d x t : number) (f : Family) :
  count f (end_brushes r d x t)
  = match f with
    | EndGroove => if (d >? of_Z 0)%js then 4%nat else 0%nat
    | _ => 0%nat
    end.
Proof.
  unfold end_brushes, end_grooves.
  destruct (d >? of_Z 0)%js, f; reflexivity.
Qed.

(** The cutters of a block, family by family. *)
Lemma count_block (r d holes : number) (index : Z) (f : Family) :
  count f (cut (block_of r d holes index))
  = match f with
    | Vertical => 1%nat
    | Through => (2 * trips holes)%nat
    | SideGroove => if (d >? of_Z 0)%js then (4 * trips holes)%nat else 0%nat
    | EndGroove => if (d >? of_Z 0)%js then 4%nat else 0%nat
    | TheBox => 0%nat
    end.
Proof.
  unfold block_of. cbv zeta. simpl cut.
  change (?b :: ?l ++ ?e) with ([b] ++ l ++ e).
  rewrite !count_app, count_ends.
  rewrite (count_flat_map f _ _ (fun i => count_level r d _ _ _ i f)).
  rewrite length_upto.
  destruct f, (d >? of_Z 0)%js; cbn [count filter name family Family_eqb List.length];
    lia.
Qed.

Lemma count_total (bs : list Brush) :
  List.length bs
  = (count Vertical bs + count Through bs + count SideGroove bs
     + count EndGroove bs + count TheBox bs)%nat.
Proof.
  unfold count. induction bs as [|b bs IH]; simpl; [reflexivity|].
  destruct (family (name b)); simpl; lia.
Qed.

(** ** C1: the number of cutters *)

(** C1.  For every hole count [n >= 1] and every groove depth [d] (and
    every radius and position), one block is the box with exactly one
    vertical cylinder, [2n] through-cylinders and, exactly when [d > 0],
    [4n] side-groove and [4] top and bottom groove cylinders subtracted
    from it, and nothing else.  In single mode with five holes, radius
    [4.0] and depth [0.5] the one block has box height [100] and [35]
    cutters. *)
Theorem cutters_per_block :
  (forall (n : Z) (r d : number) (index : Z),
      1 <= n ->
      exists m : Mesh,
        make_block r d (of_Z n) index = Some m /\
        name (base m) = boxBrush /\
        Z.of_nat (count Vertical (cut m)) = 1 /\
        Z.of_nat (count Through (cut m)) = 2 * n /\
        Z.of_nat (count SideGroove (cut m))
        = (if (d >? of_Z 0)%js then 4 * n else 0) /\
        Z.of_nat (count EndGroove (cut m))
        = (if (d >? of_Z 0)%js then 4 else 0) /\
        Z.of_nat (List.length (cut m))
        = 1 + 2 * n + (if (d >? of_Z 0)%js then 4 * n + 4 else 0))
  /\
  (forall st : State,
      mode st = "single" -> numHoles st = of_Z 5 ->
      drillRadius st = of_Z 4 -> grooveDepth st = half ->
      exists (st' : State) (m : Mesh),
        generateModel st = Some st' /\ currentMeshes st' = [m] /\
        boxHeight_of m = Some (of_Z 100) /\
        List.length (cut m) = 35%nat).
Proof.
  split.
  - intros n r d index Hn.
    exists (block_of r d (of_Z n) index).
    split; [apply make_block_spec, ends_of_Z|].
    split; [reflexivity|].
    rewrite count_total, !count_block, trips_of_Z.
    destruct (d >? of_Z 0)%js; repeat split; lia.
  - intros [md nh bl r d ms tm]; simpl; intros -> -> -> ->.
    eexists; eexists. repeat split.
Qed.

Lemma cutters_per_block_witness :
  (1 <= 5 /\
   exists m : Mesh,
     make_block (of_Z 4) half (of_Z 5) 0 = Some m /\
     Z.of_nat (List.length (cut m)) = 35)
  /\
  exists (st' : State) (m : Mesh),
    generateModel initial = Some st' /\ currentMeshes st' = [m] /\
    boxHeight_of m = Some (of_Z 100) /\ List.length (cut m) = 35%nat.
Proof.
  split.
  - split; [lia|].
    destruct (proj1 cutters_per_block 5 (of_Z 4) half 0 ltac:(lia))
      as (m & Hm & _ & _ & _ & _ & _ & Hl).
    exists m. split; [exact Hm | exact Hl].
  - exact (proj2 cutters_per_block initial eq_refl eq_refl eq_refl eq_refl).
Defined.

(** ** The script, block by block *)

Section ScriptFacts.

Variable sc : RhinoScript.

Lemma level_spec (g cx h o s go cl r : Q) (i : Z) (cs : list Py.Cylinder) :
  lit_level_guard sc = Num g ->
  Py.level sc cx h o s go cl r i cs
  = Some (cs ++ level_cylinders sc cx h o s go cl r i).
Proof.
  intro G. unfold level_cylinders, Py.level. rewrite G. simpl.
  destruct (Qltb 0 g); simpl; rewrite <- !List.app_assoc; reflexivity.
Qed.

Lemma for_in_spec (g cx h o s go cl r : Q) (l : list Z) :
  lit_level_guard sc = Num g ->
  forall cs : list Py.Cylinder,
    Py.for_in (Py.level sc cx h o s go cl r) l cs
    = Some (cs ++ flat_map (level_cylinders sc cx h o s go cl r) l).
Proof.
  intro G. induction l as [|i l IH]; intro cs; simpl.
  - rewrite List.app_nil_r. reflexivity.
  - rewrite (level_spec _ _ _ _ _ _ _ _ _ _ G). simpl.
    rewrite IH, <- List.app_assoc. reflexivity.
Qed.

Lemma end_cutters_spec (g d r' cx h cl r : Q) (cs : list Py.Cylinder) :
  lit_ends_guard sc = Num g -> lit_tb_depth sc = Num d ->
  lit_tb_radius sc = Num r' ->
  Py.end_cutters sc cx h cl r cs = Some (cs ++ end_cylinders sc cx h cl r).
Proof.
  intros G D R. unfold end_cylinders, Py.end_cutters. rewrite G, D, R. simpl.
  destruct (Qltb 0 g); simpl; [reflexivity|].
  rewrite List.app_nil_r. reflexivity.
Qed.

Lemma range_inject_Z (n : Z) : Py.range (inject_Z n) = Some (upto 0 (Z.to_nat n)).
Proof.
  unfold Py.range. rewrite Qfloor_Z, Qeq_bool_refl. reflexivity.
Qed.

End ScriptFacts.

Lemma groove_offset_Num (r d : Q) :
  (BOX_WIDTH / of_Z 2 - Num d + Num r)%js
  = Num (inject_Z 20 / inject_Z 2 - d + r).
Proof. reflexivity. Qed.

Lemma create_block_spec (st : State) (r d : Q) (n : Z) (x : Q) :
  drillRadius st = Num r -> grooveDepth st = Num d ->
  Py.create_block (downloadRhinoScript st) (inject_Z n) x
  = Some (script_block (downloadRhinoScript st) r
                       (inject_Z 20 / inject_Z 2 - d + r) n x).
Proof.
  intros R D. unfold Py.create_block.
  cbn [downloadRhinoScript lit_width lit_depth lit_height_per_hole lit_radius
       lit_offset lit_step_size lit_groove_offset].
  rewrite R, D, groove_offset_Num.
  cbn [Py.lit Py.bind BOX_WIDTH BOX_DEPTH HEIGHT_PER_HOLE of_Z
       FIRST_HOLE_OFFSET HOLE_STEP].
  rewrite range_inject_Z. cbn [Py.bind].
  rewrite (for_in_spec (downloadRhinoScript st) d) by (simpl; exact D).
  cbn [Py.bind].
  rewrite (end_cutters_spec (downloadRhinoScript st) d d r)
    by (simpl; assumption).
  reflexivity.
Qed.

Lemma lits_of_Z (ns : list Z) :
  Py.lits (map of_Z ns) = Some (map inject_Z ns).
Proof.
  induction ns as [|n ns IH]; simpl; [reflexivity|]. rewrite IH. reflexivity.
Qed.

Lemma enumerate_blocks_spec (st : State) (r d : Q) :
  drillRadius st = Num r -> grooveDepth st = Num d ->
  forall (ns : list Z) (i : Z) (doc : list Py.Block),
    Py.enumerate_blocks (downloadRhinoScript st) (inject_Z 40) i
                        (map inject_Z ns) doc
    = Some (doc ++ script_blocks (downloadRhinoScript st) r
                     (inject_Z 20 / inject_Z 2 - d + r) ns i).
Proof.
  intros R D ns. induction ns as [|n ns IH]; intros i doc; simpl.
  - rewrite List.app_nil_r. reflexivity.
  - rewrite (create_block_spec _ _ _ _ _ R D). simpl.
    rewrite IH, <- List.app_assoc. reflexivity.
Qed.

Lemma main_spec (st : State) (r d : Q) (ns : list Z) :
  drillRadius st = Num r -> grooveDepth st = Num d ->
  blocksToMake st = map of_Z ns ->
  Py.main (downloadRhinoScript st)
  = Some (script_blocks (downloadRhinoScript st) r
                        (inject_Z 20 / inject_Z 2 - d + r) ns 0).
Proof.
  intros R D B. unfold Py.main.
  change (lit_blocks (downloadRhinoScript st)) with (blocksToMake st).
  rewrite B, lits_of_Z. simpl.
  apply (enumerate_blocks_spec _ _ _ R D).
Qed.

(** ** C3: the height of the box *)

(** C3.  For every hole count [n] (so for [n >= 1]), every radius and
    every depth, the box of the block the mesh pipeline builds has height
    exactly [n] times the constant [20]; and for every finite radius and
    depth (so for [r > 0] and [d >= 0]) the box the emitted script builds,
    read off its corners, has that height too. *)
Theorem box_height_is_n_times_20 (n : Z) :
  (forall (r d : number) (index : Z),
      exists m : Mesh,
        make_block r d (of_Z n) index = Some m /\
        boxHeight_of m = Some (Num (inject_Z n * inject_Z 20)))
  /\
  (forall (st : State) (r d x : Q),
      drillRadius st = Num r -> grooveDepth st = Num d ->
      lit_height_per_hole (downloadRhinoScript st) = of_Z 20 /\
      exists (b : Py.Block) (h : Q),
        Py.create_block (downloadRhinoScript st) (inject_Z n) x = Some b /\
        corner_height b = Some h /\
        (h == inject_Z n * inject_Z 20)%Q).
Proof.
  split.
  - intros r d index. exists (block_of r d (of_Z n) index).
    split; [apply make_block_spec, ends_of_Z | reflexivity].
  - intros st r d x R D. split; [reflexivity|].
    eexists; eexists. split; [apply (create_block_spec _ _ _ _ _ R D)|].
    split; [reflexivity|]. simpl. field.
Qed.

Lemma box_height_is_n_times_20_witness :
  exists (b : Py.Block) (h : Q),
    Py.create_block (downloadRhinoScript initial) (inject_Z 5) 0 = Some b /\
    corner_height b = Some h /\ (h == inject_Z 5 * inject_Z 20)%Q.
Proof.
  exact (proj2 (proj2 (box_height_is_n_times_20 5)
                  initial 4%Q (1 # 2)%Q 0%Q eq_refl eq_refl)).
Defined.

(** ** C4: the groove offsets *)

Lemma in_block_of (r d holes : number) (index : Z) (b : Brush) :
  In b (cut (block_of r d holes index)) ->
  name b = vCylBrush \/
  (exists i, In b (level_brushes r d (of_Z index * BATCH_SPACING)%js
                     (holes * HEIGHT_PER_HOLE)%js
                     (BOX_WIDTH / of_Z 2 - d + r)%js i)) \/
  In b (end_brushes r d (of_Z index * BATCH_SPACING)%js
          ((holes * HEIGHT_PER_HOLE) / of_Z 2 - d + r)%js).
Proof.
  unfold block_of. cbv zeta. simpl cut. intros [<- | H]; [left; reflexivity|].
  apply in_app_or in H. destruct H as [H | H]; [|right; right; exact H].
  apply in_flat_map in H. destruct H as (i & _ & H). right; left. eauto.
Qed.

Lemma in_script_block (sc : RhinoScript) (r g : Q) (n : Z) (x : Q)
    (c : Py.Cylinder) :
  In c (Py.cutters (script_block sc r g n x)) ->
  Py.on_plane c = Py.plane \/
  (exists i, In c (level_cylinders sc x (inject_Z n * inject_Z 20)
                     (inject_Z 10) (inject_Z 20) g 80 r i)) \/
  In c (end_cylinders sc x (inject_Z n * inject_Z 20) 80 r).
Proof.
  unfold script_block. cbv zeta. simpl Py.cutters.
  intros [<- | H]; [left; reflexivity|].
  apply in_app_or in H. destruct H as [H | H]; [|right; right; exact H].
  apply in_flat_map in H. destruct H as (i & _ & H). right; left. eauto.
Qed.

Ltac q_equal :=
  cbn [centre_x centre_y centre_z radius length name
       Py.px Py.py Py.pz Py.origin Py.normal Py.cyl_height Py.cyl_radius];
  repeat match goal with
         | |- context [inject_Z (Zpos ?p)] =>
             change (inject_Z (Zpos p)) with (Zpos p # 1)
         | |- context [inject_Z Z0] => change (inject_Z Z0) with (0 # 1)
         end;
  first [ring | field | (field; intro Z0; discriminate Z0)].

Ltac pick_direction :=
  first
    [ exists 1%Q, 0%Q; split; [simpl; tauto | split; q_equal]
    | exists (- (1))%Q, 0%Q; split; [simpl; tauto | split; q_equal]
    | exists 0%Q, 1%Q; split; [simpl; tauto | split; q_equal]
    | exists 0%Q, (- (1))%Q; split; [simpl; tauto | split; q_equal] ].

Ltac end_position :=
  split; [q_equal | split; [q_equal |]];
  first [left; q_equal | right; q_equal].

(** C4.  For every hole count, position, depth [d >= 0] and radius
    [r > 0]: in the mesh pipeline and in the emitted script alike, every
    side-groove cylinder has its axis [20/2 - d + r] away from the block
    axis along one of the four lateral directions, and every top or
    bottom groove cylinder is centred on the block axis at
    [+(n*20/2 - d + r)] or [-(n*20/2 - d + r)] along the long axis. *)
Theorem groove_offsets (n : Z) (r d : Q) (index : Z) :
  (0 <= d)%Q -> (0 < r)%Q ->
  let off := (inject_Z 20 / inject_Z 2 - d + r)%Q in
  let tb := (inject_Z n * inject_Z 20 / inject_Z 2 - d + r)%Q in
  let x0 := (inject_Z index * inject_Z 40)%Q in
  (exists m : Mesh,
      make_block (Num r) (Num d) (of_Z n) index = Some m /\
      forall b : Brush,
        In b (cut m) ->
        (family (name b) = SideGroove ->
         exists p, brush_cutter b = Some p /\ side_groove_at x0 off p) /\
        (family (name b) = EndGroove ->
         exists p, brush_cutter b = Some p /\ end_groove_at x0 tb p))
  /\
  (forall st : State,
      drillRadius st = Num r -> grooveDepth st = Num d ->
      exists blk : Py.Block,
        Py.create_block (downloadRhinoScript st) (inject_Z n) x0 = Some blk /\
        forall c : Py.Cylinder,
          In c (Py.cutters blk) ->
          (plane_family (Py.on_plane c) = SideGroove ->
           exists q, cylinder_cutter c = Some q /\ side_groove_at x0 off q) /\
          (plane_family (Py.on_plane c) = EndGroove ->
           exists q, cylinder_cutter c = Some q /\ end_groove_at x0 tb q)).
Proof.
  intros _ _ off tb x0. split.
  - exists (block_of (Num r) (Num d) (of_Z n) index).
    split; [apply make_block_spec, ends_of_Z|].
    intros b Hb. apply in_block_of in Hb.
    destruct Hb as [Hb | [(i & Hb) | Hb]].
    + rewrite Hb. split; discriminate.
    + unfold level_brushes, hole_level in Hb.
      destruct (Num d >? of_Z 0)%js; cbn [cut evaluate app base] in Hb.
      * destruct Hb as [<- | [<- | [<- | [<- | [<- | [<- | []]]]]]];
          (split; intro F; [|discriminate F]); try discriminate F.
        all: eexists; (split; [reflexivity|]).
        all: unfold off, x0; pick_direction.
      * destruct Hb as [<- | [<- | []]]; split; discriminate.
    + unfold end_brushes, end_grooves in Hb.
      destruct (Num d >? of_Z 0)%js; cbn [cut evaluate app base] in Hb.
      * destruct Hb as [<- | [<- | [<- | [<- | []]]]];
          (split; intro F; [discriminate F|]).
        all: eexists; (split; [reflexivity|]).
        all: unfold tb, x0; end_position.
      * destruct Hb.
  - intros st R D.
    eexists. split; [apply (create_block_spec _ _ _ _ _ R D)|].
    intros c Hc. apply in_script_block in Hc.
    destruct Hc as [Hc | [(i & Hc) | Hc]].
    + rewrite Hc. split; discriminate.
    + unfold level_cylinders, Py.level in Hc.
      cbn [downloadRhinoScript lit_level_guard] in Hc. rewrite D in Hc.
      cbn [Py.lit Py.bind] in Hc.
      destruct (Qltb 0 d); cbn [or_nil app] in Hc.
      * destruct Hc as [<- | [<- | [<- | [<- | [<- | [<- | []]]]]]];
          (split; intro F; [|discriminate F]); try discriminate F.
        all: eexists; (split; [reflexivity|]).
        all: unfold off, x0; pick_direction.
      * destruct Hc as [<- | [<- | []]]; split; discriminate.
    + unfold end_cylinders, Py.end_cutters in Hc.
      cbn [downloadRhinoScript lit_ends_guard lit_tb_depth lit_tb_radius] in Hc.
      rewrite D, R in Hc. cbn [Py.lit Py.bind] in Hc.
      destruct (Qltb 0 d); cbn [or_nil app] in Hc.
      * destruct Hc as [<- | [<- | [<- | [<- | []]]]];
          (split; intro F; [discriminate F|]).
        all: eexists; (split; [reflexivity|]).
        all: unfold tb, x0; end_position.
      * destruct Hc.
Qed.

Lemma groove_offsets_witness :
  (exists m : Mesh,
      make_block (Num 4) (Num (1 # 2)) (of_Z 5) 1 = Some m /\
      forall b : Brush,
        In b (cut m) ->
        (family (name b) = SideGroove ->
         exists p, brush_cutter b = Some p /\
                   side_groove_at (inject_Z 1 * inject_Z 40)
                     (inject_Z 20 / inject_Z 2 - (1 # 2) + 4) p) /\
        (family (name b) = EndGroove ->
         exists p, brush_cutter b = Some p /\
                   end_groove_at (inject_Z 1 * inject_Z 40)
                     (inject_Z 5 * inject_Z 20 / inject_Z 2 - (1 # 2) + 4) p))
  /\
  (exists blk : Py.Block,
      Py.create_block (downloadRhinoScript initial) (inject_Z 5)
                      (inject_Z 1 * inject_Z 40) = Some blk /\
      forall c : Py.Cylinder,
        In c (Py.cutters blk) ->
        (plane_family (Py.on_plane c) = SideGroove ->
         exists q, cylinder_cutter c = Some q /\
                   side_groove_at (inject_Z 1 * inject_Z 40)
                     (inject_Z 20 / inject_Z 2 - (1 # 2) + 4) q) /\
        (plane_family (Py.on_plane c) = EndGroove ->
         exists q, cylinder_cutter c = Some q /\
                   end_groove_at (inject_Z 1 * inject_Z 40)
                     (inject_Z 5 * inject_Z 20 / inject_Z 2 - (1 # 2) + 4) q)).
Proof.
  destruct (groove_offsets 5 4 (1 # 2) 1 ltac:(discriminate)
              ltac:(reflexivity)) as [M S].
  split; [exact M | exact (S initial eq_refl eq_refl)].
Defined.

(** ** C5: the batch [3, 2, 5] *)

Lemma levels_flat_map (A : Type) (p : A -> bool) (g : Z -> list A) :
  (forall i, List.length (filter p (g i)) = 1%nat) ->
  forall l, List.length (filter p (flat_map g l)) = List.length l.
Proof.
  intros Hg l. induction l as [|i l IH]; simpl; [reflexivity|].
  rewrite filter_app, length_app, Hg, IH. reflexivity.
Qed.

Lemma hole_levels_block (r d holes : number) (index : Z) :
  hole_levels (block_of r d holes index) = trips holes.
Proof.
  unfold hole_levels, block_of. cbv zeta. simpl cut.
  change (?b :: ?l ++ ?e) with ([b] ++ l ++ e).
  rewrite !filter_app, !length_app, levels_flat_map, length_upto.
  - unfold end_brushes, end_grooves.
    destruct (d >? of_Z 0)%js; simpl; lia.
  - intro i. unfold level_brushes, hole_level.
    destruct (d >? of_Z 0)%js; reflexivity.
Qed.

Lemma script_levels_block (sc : RhinoScript) (g' r g : Q) (n : Z) (x : Q) :
  lit_level_guard sc = Num g' ->
  script_levels (script_block sc r g n x) = Z.to_nat n.
Proof.
  intro G. unfold script_levels, script_block. cbv zeta. simpl Py.cutters.
  change (?b :: ?l ++ ?e) with ([b] ++ l ++ e).
  rewrite !filter_app, !length_app, levels_flat_map, length_upto.
  - unfold end_cylinders, Py.end_cutters.
    destruct (Py.lit (lit_ends_guard sc)) as [e|]; [|simpl; lia].
    cbn [Py.bind]. destruct (Qltb 0 e); [|simpl; lia].
    destruct (Py.lit (lit_tb_depth sc)); [|simpl; lia].
    destruct (Py.lit (lit_tb_radius sc)); simpl; lia.
  - intro i. unfold level_cylinders, Py.level. rewrite G. cbn [Py.lit Py.bind].
    destruct (Qltb 0 g'); reflexivity.
Qed.

(** C5.  In batch mode with the list [3, 2, 5] (whatever the finite
    radius and depth), the mesh pipeline builds three blocks centred at
    [0 * 40], [1 * 40] and [2 * 40] with [3], [2] and [5] hole levels, and
    so does the driver loop of the emitted script. *)
Theorem batch_3_2_5 (st : State) (r d : Q) :
  mode st = "batch" -> batchList st = [of_Z 3; of_Z 2; of_Z 5] ->
  drillRadius st = Num r -> grooveDepth st = Num d ->
  (exists st' : State,
      generateModel st = Some st' /\
      map (fun m => (block_centre m, hole_levels m)) (currentMeshes st')
      = [((of_Z 0 * BATCH_SPACING)%js, 3%nat);
         ((of_Z 1 * BATCH_SPACING)%js, 2%nat);
         ((of_Z 2 * BATCH_SPACING)%js, 5%nat)] /\
      BATCH_SPACING = of_Z 40)
  /\
  (exists blocks : list Py.Block,
      Py.main (downloadRhinoScript st) = Some blocks /\
      Forall2 (fun b want =>
                 (exists x, script_centre b = Some x /\
                            (x == inject_Z (fst want) * inject_Z 40)%Q) /\
                 script_levels b = snd want)
              blocks [(0, 3%nat); (1, 2%nat); (2, 5%nat)]).
Proof.
  intros M B R D.
  assert (Bl : blocksToMake st = map of_Z [3; 2; 5]).
  { unfold blocksToMake. rewrite M, B. reflexivity. }
  split.
  - rewrite generateModel_spec
      by (rewrite Bl; repeat constructor; discriminate).
    eexists. split; [reflexivity|]. rewrite Bl. split; [|reflexivity].
    cbn [currentMeshes set_currentMeshes blocks_from map].
    rewrite !hole_levels_block. reflexivity.
  - rewrite (main_spec st r d [3; 2; 5] R D Bl).
    eexists. split; [reflexivity|].
    repeat constructor; cbn [fst snd];
      try (eexists; split; [reflexivity|]; simpl; field);
      try (apply (script_levels_block _ d); exact D).
Qed.

Lemma batch_3_2_5_witness :
  exists st' : State,
    generateModel (on_mode_change "batch" initial) = Some st' /\
    map (fun m => (block_centre m, hole_levels m)) (currentMeshes st')
    = [((of_Z 0 * BATCH_SPACING)%js, 3%nat);
       ((of_Z 1 * BATCH_SPACING)%js, 2%nat);
       ((of_Z 2 * BATCH_SPACING)%js, 5%nat)] /\
    BATCH_SPACING = of_Z 40.
Proof.
  exact (proj1 (batch_3_2_5 (on_mode_change "batch" initial) 4 (1 # 2)
                  eq_refl eq_refl eq_refl eq_refl)).
Defined.

(** ** What the sessions preserve *)

Lemma parseInt_cases (s : string) :
  parseInt s = NaN \/ is_integer (parseInt s).
Proof.
  unfold parseInt.
  destruct (take_sign _) as [negative s1].
  match goal with |- context [let (_, _) := ?m in _] =>
    destruct m as [R s2] end.
  destruct (fst (take_digits R s2)).
  - left; reflexivity.
  - right. eexists. reflexivity.
Qed.

Lemma of_Z_lt (a b : Z) : (of_Z a <? of_Z b)%js = (a <? b).
Proof.
  unfold of_Z, JS.lt. rewrite Qltb_inject_Z, Qceiling_Z. reflexivity.
Qed.


Lemma parse_batch_positive (str : string) :
  Forall positive_integer (parse_batch str).
Proof.
  unfold parse_batch. apply Forall_forall. intros n Hn.
  apply filter_In in Hn. destruct Hn as [Hn Hf].
  apply in_map_iff in Hn. destruct Hn as (s & <- & _).
  destruct (parseInt_cases (trim s)) as [E | [z E]]; rewrite E in *.
  - discriminate Hf.
  - exists z. split; [reflexivity|].
    simpl isNaN in Hf. unfold JS.gt in Hf. rewrite of_Z_lt in Hf.
    apply Z.ltb_lt. exact Hf.
Qed.

Lemma generateModel_parameters (st st' : State) :
  generateModel st = Some st' -> same_parameters st st'.
Proof.
  unfold generateModel.
  destruct (forEach_block _ _ _ _ _); [|discriminate].
  intros [= <-]. repeat split.
Qed.

Lemma sane_same_parameters (a b : State) :
  same_parameters a b -> sane a -> sane b.
Proof.
  intros (_ & N & B & _ & _). unfold sane. rewrite N, B. tauto.
Qed.

Lemma handle_sane (e : Event) (st st' : State) :
  sane st -> handle e st = Some st' -> sane st'.
Proof.
  intros S H. destruct e; simpl in H; try (injection H as <-).
  - exact S.
  - destruct S as (_ & B & Bn). split; [|split; assumption].
    cbn [on_holes_input debouncedGenerate set_numHoles numHoles].
    destruct (parseInt_cases value) as [E | [z E]]; rewrite E.
    + left; reflexivity.
    + right. rewrite of_Z_lt. destruct (Z.ltb_spec z 1).
      * exists 1. split; [reflexivity | lia].
      * exists z. split; [reflexivity | assumption].
  - unfold on_batch_input.
    destruct (parse_batch value) as [|n l] eqn:E; simpl; [exact S|].
    destruct S as (N & _ & _). split; [exact N|]. split; [|discriminate].
    rewrite <- E. apply parse_batch_positive.
  - exact S.
  - exact S.
  - destruct (debounceTimer st); [|injection H as <-; exact S].
    apply generateModel_parameters in H.
    apply (sane_same_parameters (clear_timer st)); [exact H | exact S].
Qed.

Lemma initial_sane : sane initial.
Proof.
  split; [right; exists 5; split; [reflexivity | lia]|].
  split; [|discriminate].
  repeat constructor; eexists; (split; [reflexivity | lia]).
Qed.

Lemma reachable_sane (st : State) : reachable st -> sane st.
Proof.
  induction 1 as [|st e st' _ IH H]; [exact initial_sane|].
  exact (handle_sane e st st' IH H).
Qed.

Lemma sane_ends (st : State) : sane st -> Forall ends (blocksToMake st).
Proof.
  intros (N & B & _). unfold blocksToMake.
  destruct (String.eqb (mode st) "single").
  - constructor; [|constructor].
    destruct N as [-> | (z & -> & _)]; discriminate.
  - eapply Forall_impl; [|exact B]. intros n (z & -> & _). discriminate.
Qed.

(** On every state a session reaches, [generateModel] ends. *)
Lemma generateModel_total (st : State) :
  reachable st ->
  generateModel st
  = Some (set_currentMeshes
            (blocks_from (drillRadius st) (grooveDepth st) (blocksToMake st) 0)
            st).
Proof.
  intro H. apply generateModel_spec, sane_ends, reachable_sane, H.
Qed.

(** ** Counting the cylinders of the script *)

Lemma count_py_app (f : Family) (a b : list Py.Cylinder) :
  count_py f (a ++ b) = (count_py f a + count_py f b)%nat.
Proof. unfold count_py. rewrite filter_app, length_app. reflexivity. Qed.

Lemma count_py_flat_map (f : Family) (g : Z -> list Py.Cylinder) (c : nat) :
  (forall i, count_py f (g i) = c) ->
  forall l, count_py f (flat_map g l) = (List.length l * c)%nat.
Proof.
  intros Hg l. induction l as [|i l IH]; simpl; [reflexivity|].
  rewrite count_py_app, Hg, IH. reflexivity.
Qed.

Section ScriptCounts.

Variables (sc : RhinoScript) (g d' r' : Q).
Hypothesis level_guard : lit_level_guard sc = Num g.
Hypothesis ends_guard : lit_ends_guard sc = Num g.
Hypothesis tb_depth : lit_tb_depth sc = Num d'.
Hypothesis tb_radius : lit_tb_radius sc = Num r'.

Lemma count_py_level (cx h o s go cl r : Q) (i : Z) (f : Family) :
  count_py f (level_cylinders sc cx h o s go cl r i)
  = match f with
    | Through => 2%nat
    | SideGroove => if Qltb 0 g then 4%nat else 0%nat
    | _ => 0%nat
    end.
Proof.
  unfold level_cylinders, Py.level. rewrite level_guard. cbn [Py.lit Py.bind].
  destruct (Qltb 0 g), f; reflexivity.
Qed.

Lemma count_py_ends (cx h cl r : Q) (f : Family) :
  count_py f (end_cylinders sc cx h cl r)
  = match f with
    | EndGroove => if Qltb 0 g then 4%nat else 0%nat
    | _ => 0%nat
    end.
Proof.
  unfold end_cylinders, Py.end_cutters.
  rewrite ends_guard, tb_depth, tb_radius. cbn [Py.lit Py.bind].
  destruct (Qltb 0 g), f; reflexivity.
Qed.

Lemma count_py_block (r go : Q) (n : Z) (x : Q) (f : Family) :
  count_py f (Py.cutters (script_block sc r go n x))
  = match f with
    | Vertical => 1%nat
    | Through => (2 * Z.to_nat n)%nat
    | SideGroove => if Qltb 0 g then (4 * Z.to_nat n)%nat else 0%nat
    | EndGroove => if Qltb 0 g then 4%nat else 0%nat
    | TheBox => 0%nat
    end.
Proof.
  unfold script_block. cbv zeta. simpl Py.cutters.
  change (?b :: ?l ++ ?e) with ([b] ++ l ++ e).
  rewrite !count_py_app, count_py_ends.
  rewrite (count_py_flat_map f _ _
             (fun i => count_py_level _ _ _ _ _ _ _ i f)).
  rewrite length_upto.
  destruct f, (Qltb 0 g);
    cbn [count_py filter Py.on_plane plane_family Family_eqb List.length];
    lia.
Qed.

End ScriptCounts.

Lemma Qltb_0_nonpos (d : Q) : (d <= 0)%Q -> Qltb 0 d = false.
Proof. intro H. apply Qltb_false. exact H. Qed.

(** Without a positive depth the mesh pipeline cuts no groove. *)
Lemma block_no_grooves (r d holes : number) (index : Z) :
  (d >? of_Z 0)%js = false -> no_grooves (block_of r d holes index).
Proof.
  intro H. unfold no_grooves. rewrite !count_block, H. split; reflexivity.
Qed.


(** Without a positive depth the script builds no groove cylinder. *)
Lemma script_block_no_grooves (st : State) (r d go : Q) (n : Z) (x : Q) :
  drillRadius st = Num r -> grooveDepth st = Num d -> (d <= 0)%Q ->
  script_no_grooves (script_block (downloadRhinoScript st) r go n x).
Proof.
  intros R D H. unfold script_no_grooves.
  rewrite !(count_py_block (downloadRhinoScript st) d d r D D D R).
  rewrite (Qltb_0_nonpos d H). split; reflexivity.
Qed.

(** ** C6 and C10: the radius floor, and depths that cut no groove *)

Lemma block_drilled_with (r d holes : number) (index : Z) :
  drilled_with r (block_of r d holes index).
Proof.
  unfold drilled_with, block_of. cbv zeta. simpl cut.
  constructor; [eexists; reflexivity|].
  apply Forall_app. split.
  - apply Forall_flat_map, Forall_forall. intros i _.
    unfold level_brushes, hole_level.
    destruct (d >? of_Z 0)%js; repeat constructor; eexists; reflexivity.
  - unfold end_brushes, end_grooves.
    destruct (d >? of_Z 0)%js; repeat constructor; eexists; reflexivity.
Qed.

Lemma blocks_drilled_with (r d : number) (blocks : list number) :
  forall index, Forall (drilled_with r) (blocks_from r d blocks index).
Proof.
  induction blocks as [|h t IH]; intro index; simpl; constructor;
    [apply block_drilled_with | apply IH].
Qed.



Lemma clamped_radius (v : number) :
  ~ zero_or_negative (if (v <=? of_Z 0)%js then half else v).
Proof.
  assert (Hh : ~ zero_or_negative half).
  { intro L. apply L. reflexivity. }
  destruct v as [| s | q]; simpl.
  - exact (fun F => F).
  - destruct s; [exact Hh | discriminate].
  - destruct (Qle_bool q (inject_Z 0)) eqn:E; [exact Hh|].
    intro L.
    assert (T : Qle_bool q (inject_Z 0) = true)
      by (apply Qle_bool_iff; exact L).
    congruence.
Qed.

(** No session leaves a zero or negative radius in the state. *)
Lemma reachable_radius (st : State) :
  reachable st -> ~ zero_or_negative (drillRadius st).
Proof.
  induction 1 as [|st e st' _ IH H]; [intro L; apply L; reflexivity|].
  destruct e; simpl in H; try (injection H as <-); try exact IH.
  - unfold on_batch_input. destruct (_ <? _); exact IH.
  - apply clamped_radius.
  - destruct (debounceTimer st); [|injection H as <-; exact IH].
    apply generateModel_parameters in H. destruct H as (_ & _ & _ & R & _).
    rewrite <- R. exact IH.
Qed.

(** C6.  A radius input that reads as zero or as a negative number
    ([-Infinity] included) sets [drillRadius] to the floor [0.5]; the
    generation that follows drills every cylinder with that radius and
    the script prints it wherever it prints a radius; so no state of a
    session holds a zero or negative radius.  With the groove
    depth exactly zero the mesh pipeline subtracts no groove cylinder,
    and the script, whose two guards [if ... > 0] test the depth, builds
    none. *)
Theorem radius_floor_and_zero_depth :
  (forall (st : State) (value : string),
      reachable st -> zero_or_negative (parseFloat value) ->
      let st' := on_radius_input value st in
      drillRadius st' = half /\
      (exists st'' : State,
          generateModel st' = Some st'' /\
          Forall (drilled_with half) (currentMeshes st'')) /\
      lit_radius (downloadRhinoScript st') = half /\
      lit_tb_radius (downloadRhinoScript st') = half /\
      lit_groove_offset (downloadRhinoScript st')
      = (BOX_WIDTH / of_Z 2 - grooveDepth st + half)%js)
  /\
  (forall st : State, reachable st -> ~ zero_or_negative (drillRadius st))
  /\
  (forall (r holes : number) (d : Q) (index : Z),
      (d == 0)%Q -> ends holes ->
      exists m : Mesh,
        make_block r (Num d) holes index = Some m /\ no_grooves m)
  /\
  (forall (st : State) (r d : Q) (n : Z) (x : Q),
      drillRadius st = Num r -> grooveDepth st = Num d -> (d == 0)%Q ->
      lit_level_guard (downloadRhinoScript st) = grooveDepth st /\
      lit_ends_guard (downloadRhinoScript st) = grooveDepth st /\
      exists blk : Py.Block,
        Py.create_block (downloadRhinoScript st) (inject_Z n) x = Some blk /\
        script_no_grooves blk).
Proof.
  split; [|split; [exact reachable_radius|split]].
  - intros st value Hr P st'.
    assert (E : drillRadius st' = half).
    { unfold st', on_radius_input.
      destruct (parseFloat value) as [| s | q]; simpl in P.
      - contradiction.
      - subst s. reflexivity.
      - cbn [debouncedGenerate set_drillRadius drillRadius JS.le of_Z].
        replace (Qle_bool q (inject_Z 0)) with true; [reflexivity|].
        symmetry. apply Qle_bool_iff. exact P. }
    assert (Hr' : reachable st').
    { apply (reach_handle st (RadiusInput value)); [exact Hr | reflexivity]. }
    split; [exact E|]. split.
    + rewrite (generateModel_total st' Hr'). eexists. split; [reflexivity|].
      cbn [currentMeshes set_currentMeshes]. rewrite E.
      apply blocks_drilled_with.
    + cbn [downloadRhinoScript lit_radius lit_tb_radius lit_groove_offset].
      rewrite E. repeat split.
  - intros r holes d index Hd He.
    exists (block_of r (Num d) holes index).
    split; [apply make_block_spec, He|].
    apply block_no_grooves. rewrite gt_zero_Num. apply Qltb_0_nonpos.
    rewrite Hd. apply Qle_refl.
  - intros st r d n x R D Hd. split; [reflexivity|]. split; [reflexivity|].
    eexists. split; [apply (create_block_spec _ _ _ _ _ R D)|].
    apply (script_block_no_grooves st r d _ n x R D).
    rewrite Hd. apply Qle_refl.
Qed.

Lemma radius_floor_and_zero_depth_witness :
  drillRadius (on_radius_input "-3" initial) = half /\
  (exists m : Mesh,
      make_block (of_Z 4) (Num 0) (of_Z 5) 0 = Some m /\ no_grooves m) /\
  (exists blk : Py.Block,
      Py.create_block
        (downloadRhinoScript (on_depth_input "0" initial)) (inject_Z 5) 0
      = Some blk /\
      script_no_grooves blk).
Proof.
  destruct radius_floor_and_zero_depth as (A & _ & B & C).
  split; [|split].
  - exact (proj1 (A initial "-3" reach_initial ltac:(discriminate))).
  - exact (B (of_Z 4) (of_Z 5) 0%Q 0 ltac:(reflexivity) ltac:(discriminate)).
  - exact (proj2 (proj2 (C (on_depth_input "0" initial) 4%Q
                           (inject_Z 0 * (10 # 1) ^ 0)%Q 5 0%Q
                           eq_refl eq_refl ltac:(reflexivity)))).
Defined.





(** ** C7: the batch list *)

Lemma Qle_bool_inject_Z (a b : Z) :
  Qle_bool (inject_Z a) (inject_Z b) = (a <=? b).
Proof.
  unfold Qle_bool, inject_Z. cbn [Qnum Qden]. rewrite !Z.mul_1_r.
  reflexivity.
Qed.

Lemma double_limit_pos : 0 < double_limit.
Proof. vm_compute. reflexivity. Qed.

Lemma to_double_of_Z (z : Z) :
  to_double (of_Z z)
  = if double_limit <=? z then Inf false
    else if z <=? - double_limit then Inf true else of_Z z.
Proof. unfold to_double, of_Z. rewrite !Qle_bool_inject_Z. reflexivity. Qed.

(** What [parseInt] returns once converted: [NaN], an infinity, or an
    integer inside the range of doubles. *)
Lemma parseInt_double_cases (s : string) :
  (parseInt s = NaN /\ parseInt_double s = NaN) \/
  (exists z, parseInt s = of_Z z /\ double_limit <= z /\
             parseInt_double s = Inf false) \/
  (exists z, parseInt s = of_Z z /\ z <= - double_limit /\
             parseInt_double s = Inf true) \/
  (exists z, parseInt s = of_Z z /\ - double_limit < z < double_limit /\
             parseInt_double s = of_Z z).
Proof.
  unfold parseInt_double.
  destruct (parseInt_cases s) as [E | [z E]]; rewrite E.
  - left. split; reflexivity.
  - right. rewrite to_double_of_Z.
    destruct (Z.leb_spec double_limit z) as [H1 | H1].
    + left. exists z. auto.
    + destruct (Z.leb_spec z (- double_limit)) as [H2 | H2].
      * right. left. exists z. auto.
      * right. right. exists z. split; [reflexivity|]. split; [lia|reflexivity].
Qed.

Lemma keep_positive_numbers_filter (l : list number) :
  Forall (fun n => n = NaN \/ (exists s, n = Inf s) \/ is_integer n) l ->
  filter (fun n => negb (isNaN n) && (n >? of_Z 0)%js) l
  = keep_positive_numbers l.
Proof.
  induction 1 as [|n l Hn _ IH]; [reflexivity|].
  cbn [filter keep_positive_numbers]. rewrite IH.
  destruct Hn as [-> | [[[|] ->] | [z ->]]]; [reflexivity..|].
  change (of_Z z >? of_Z 0)%js with (of_Z 0 <? of_Z z)%js.
  rewrite of_Z_lt. unfold of_Z. cbn [isNaN negb andb].
  rewrite Qfloor_Z, Qeq_bool_refl. reflexivity.
Qed.

Lemma parse_batch_double_positive (str : string) :
  Forall (fun n => positive_integer n \/ n = Inf false)
         (parse_batch_double str).
Proof.
  unfold parse_batch_double. apply Forall_forall. intros n Hn.
  apply filter_In in Hn. destruct Hn as [Hn Hf].
  apply in_map_iff in Hn. destruct Hn as (s & <- & _).
  destruct (parseInt_double_cases (trim s))
    as [[_ E] | [(z & _ & _ & E) | [(z & _ & _ & E) | (z & _ & _ & E)]]];
    rewrite E in *.
  - discriminate Hf.
  - right. reflexivity.
  - discriminate Hf.
  - left. exists z. split; [reflexivity|].
    simpl isNaN in Hf. unfold JS.gt in Hf. rewrite of_Z_lt in Hf.
    apply Z.ltb_lt. exact Hf.
Qed.

(** The statement of C7 read on the code: the list kept from
    [long_entry] is [[Infinity]], and [Infinity] is no positive integer;
    it becomes the batch list. *)
Lemma batch_keeps_infinity :
  parse_batch_double long_entry = [Inf false] /\
  ~ Forall positive_integer (parse_batch_double long_entry) /\
  batchList (on_batch_input_double long_entry initial) = [Inf false].
Proof.
  assert (E : parse_batch_double long_entry = [Inf false])
    by (vm_compute; reflexivity).
  split; [exact E|]. split.
  - rewrite E. intro H. inversion H as [|? ? (z & Hz & _) _].
    discriminate Hz.
  - unfold on_batch_input_double. rewrite E. reflexivity.
Qed.

(** C7, amended.  For every text of the batch field: the list read from
    it is, of the entries [parseInt] returns between the commas, those
    that are a positive integer or [Infinity], in their order, so an
    entry that does not parse, or that is zero or negative, is dropped;
    an entry is [Infinity] exactly when its digits spell [double_limit]
    or more; when no entry does, the list is the one read with exact
    integers.  The handler always returns a state; it replaces the batch
    list by the list read unless that list is empty, in which case the
    batch list stays what it was.  No other parameter changes. *)
Theorem batch_input_keeps_positive_numbers (str : string) (st : State) :
  let entries := map (fun s => parseInt_double (trim s)) (split_comma str) in
  parse_batch_double str = keep_positive_numbers entries /\
  Forall (fun n => positive_integer n \/ n = Inf false)
         (parse_batch_double str) /\
  (forall s, In s (split_comma str) ->
     (parseInt_double (trim s) = Inf false <->
      exists z, parseInt (trim s) = of_Z z /\ double_limit <= z)) /\
  (~ In (Inf false) (parse_batch_double str) ->
   parse_batch_double str = parse_batch str) /\
  ~ In NaN (parse_batch_double str) /\
  (parse_batch_double str = [] ->
   batchList (on_batch_input_double str st) = batchList st) /\
  (parse_batch_double str <> [] ->
   batchList (on_batch_input_double str st) = parse_batch_double str) /\
  mode (on_batch_input_double str st) = mode st /\
  numHoles (on_batch_input_double str st) = numHoles st /\
  drillRadius (on_batch_input_double str st) = drillRadius st /\
  grooveDepth (on_batch_input_double str st) = grooveDepth st.
Proof.
  intro entries.
  assert (P := parse_batch_double_positive str).
  split; [|split; [exact P|split; [|split; [|split]]]].
  - apply keep_positive_numbers_filter, Forall_forall.
    intros n Hn. apply in_map_iff in Hn. destruct Hn as (s & <- & _).
    destruct (parseInt_double_cases (trim s))
      as [[_ E] | [(z & _ & _ & E) | [(z & _ & _ & E) | (z & _ & _ & E)]]];
      rewrite E.
    + left. reflexivity.
    + right. left. exists false. reflexivity.
    + right. left. exists true. reflexivity.
    + right. right. exists z. reflexivity.
  - intros s _. split.
    + intro E.
      destruct (parseInt_double_cases (trim s))
        as [[_ E'] | [(z & Hz & Hl & _) | [(z & _ & _ & E') | (z & _ & _ & E')]]];
        try (rewrite E in E'; discriminate E').
      exists z. split; assumption.
    + intros (z & Hz & Hl). unfold parseInt_double.
      rewrite Hz, to_double_of_Z.
      destruct (Z.leb_spec double_limit z); [reflexivity|lia].
  - unfold parse_batch_double, parse_batch.
    induction (split_comma str) as [|s l IH]; [reflexivity|].
    cbn [map filter]. intro Hno.
    destruct (parseInt_double_cases (trim s))
      as [[Hz E] | [(z & Hz & Hl & E) | [(z & Hz & Hl & E) | (z & Hz & Hl & E)]]];
      rewrite E in *.
    + rewrite Hz. cbn [isNaN negb andb]. apply IH. exact Hno.
    + exfalso. apply Hno. left. reflexivity.
    + rewrite Hz. assert (Hp := double_limit_pos).
      change (of_Z z >? of_Z 0)%js with (of_Z 0 <? of_Z z)%js.
      rewrite of_Z_lt.
      destruct (Z.ltb_spec 0 z) as [H0 | H0]; [lia|].
      cbn [isNaN negb andb JS.gt JS.lt]. apply IH. exact Hno.
    + rewrite Hz.
      destruct (negb (isNaN (of_Z z)) && (of_Z z >? of_Z 0)%js).
      * f_equal. apply IH. intro H. apply Hno. right. exact H.
      * apply IH. exact Hno.
  - intro Hn. rewrite Forall_forall in P.
    destruct (P NaN Hn) as [(z & E & _) | E]; discriminate E.
  - unfold on_batch_input_double.
    destruct (parse_batch_double str) as [|n l]; simpl; repeat split;
      congruence.
Qed.

Example batch_input_example :
  parse_batch "3, x, -2, 0, 4abc, ,0x10, 7.9"
  = [of_Z 3; of_Z 4; of_Z 16; of_Z 7]
  /\ batchList (on_batch_input "a, -1,," initial) = batchList initial.
Proof. split; reflexivity. Qed.

(** ** C8: regenerating *)

Lemma blocksToMake_same (a b : State) :
  same_parameters a b -> blocksToMake a = blocksToMake b.
Proof.
  intros (M & N & B & _). unfold blocksToMake. rewrite M, N, B. reflexivity.
Qed.

(** C8.  On every state a session reaches, generating ends; generating
    again from the state it leaves gives that very state, with the same
    meshes, so the same cutters at the same places with the same radii
    and lengths; and generating from any state with the same parameters,
    whatever meshes it displays and whether or not a timer is pending,
    gives the same meshes. *)
Theorem regeneration_is_repeatable (st : State) :
  reachable st ->
  exists st1 : State,
    generateModel st = Some st1 /\
    generateModel st1 = Some st1 /\
    forall st2 : State,
      same_parameters st st2 ->
      exists st3 : State,
        generateModel st2 = Some st3 /\
        currentMeshes st3 = currentMeshes st1.
Proof.
  intro Hr. assert (He := sane_ends st (reachable_sane st Hr)).
  rewrite (generateModel_spec st He). eexists. split; [reflexivity|].
  split.
  - rewrite generateModel_spec by exact He. reflexivity.
  - intros st2 Hp. assert (B := blocksToMake_same _ _ Hp).
    rewrite generateModel_spec by (rewrite <- B; exact He).
    eexists. split; [reflexivity|].
    destruct Hp as (_ & _ & _ & R & D). simpl. rewrite R, D, B. reflexivity.
Qed.

Lemma regeneration_is_repeatable_witness :
  exists st1 : State,
    generateModel initial = Some st1 /\
    generateModel st1 = Some st1 /\
    forall st2 : State,
      same_parameters initial st2 ->
      exists st3 : State,
        generateModel st2 = Some st3 /\
        currentMeshes st3 = currentMeshes st1.
Proof.
  exact (regeneration_is_repeatable initial reach_initial).
Defined.

(** ** C9: input that is not a number *)

Lemma is_digit_false (c : ascii) (t : list ascii) :
  is_digit c = false -> take_digits 10 (c :: t) = ([], c :: t).
Proof.
  unfold is_digit. simpl. destruct (radix_digit 10 c); [discriminate|].
  reflexivity.
Qed.

Lemma parseFloat_not_decimal (s : string) :
  begins_with_decimal s = false -> parseFloat s = NaN.
Proof.
  unfold begins_with_decimal, parseFloat.
  destruct (take_sign _) as [negative s1]. cbn [snd].
  destruct s1 as [|c t]; [reflexivity|].
  intro H. apply orb_false_iff in H. destruct H as [H I].
  apply orb_false_iff in H. destruct H as [Hc Hd].
  rewrite I, (is_digit_false c t Hc).
  destruct (Ascii.eqb c "."); [|reflexivity].
  destruct t as [|c' t']; [reflexivity|].
  simpl in Hd. rewrite (is_digit_false c' t' Hd). reflexivity.
Qed.

Lemma parseInt_not_digit (s : string) :
  begins_with_digit s = false -> parseInt s = NaN.
Proof.
  unfold begins_with_digit, parseInt.
  destruct (take_sign _) as [negative s1]. cbn [snd].
  destruct s1 as [|c t]; [reflexivity|].
  intro H.
  assert (E : Ascii.eqb c "0" = false).
  { destruct (Ascii.eqb_spec c "0"%char) as [-> |]; [discriminate H|].
    reflexivity. }
  destruct t as [|x t]; [|rewrite E; cbn [andb]];
    rewrite (is_digit_false c _ H); reflexivity.
Qed.

Lemma is_digit_true (c : ascii) (t : list ascii) :
  is_digit c = true ->
  exists v ds rest, take_digits 10 (c :: t) = (v :: ds, rest).
Proof.
  unfold is_digit. simpl. destruct (radix_digit 10 c) as [v|]; [|discriminate].
  intros _. destruct (take_digits 10 t) as [ds rest]. eauto.
Qed.

(** The texts [parseFloat] reads as [NaN] are exactly those that do not
    begin with a decimal literal. *)
Lemma parseFloat_NaN_iff (s : string) :
  parseFloat s = NaN <-> begins_with_decimal s = false.
Proof.
  split; [|apply parseFloat_not_decimal].
  unfold begins_with_decimal, parseFloat.
  destruct (take_sign _) as [negative s1]. cbn [snd].
  destruct s1 as [|c t]; [reflexivity|].
  destruct (starts_with _ (c :: t)); [discriminate|].
  rewrite orb_false_r.
  destruct (is_digit c) eqn:Hc.
  - destruct (is_digit_true c t Hc) as (v & ds & rest & ->).
    destruct rest as [|c' t']; [discriminate|].
    destruct (Ascii.eqb c' "."); [|discriminate].
    destruct (take_digits 10 t'); discriminate.
  - rewrite (is_digit_false c t Hc). cbn [orb].
    destruct (Ascii.eqb c "."); [|reflexivity].
    destruct t as [|c' t']; [reflexivity|].
    destruct (is_digit c') eqn:Hc'; [|reflexivity].
    destruct (is_digit_true c' t' Hc') as (v & ds & rest & ->).
    discriminate.
Qed.

(** C9.  A radius text that does not begin (after white space and a
    sign) with a decimal literal reads as [NaN]; [NaN <= 0] is false, so
    [drillRadius] becomes [NaN], a regeneration is scheduled, and when
    it runs every cylinder is drilled with radius [NaN].  Likewise a
    holes text that does not begin with a digit reads as [NaN];
    [NaN < 1] is false, so [numHoles] becomes [NaN], and in single mode
    the regeneration builds one block whose box height is [NaN]. *)
Theorem non_numeric_input_is_not_clamped :
  (forall (value : string) (st : State),
      begins_with_decimal value = false ->
      let st' := on_radius_input value st in
      parseFloat value = NaN /\
      (NaN <=? of_Z 0)%js = false /\
      drillRadius st' = NaN /\
      debounceTimer st' = true /\
      (reachable st ->
       exists st'' : State,
         handle TimerFires st' = Some st'' /\
         currentMeshes st'' <> [] /\
         Forall (drilled_with NaN) (currentMeshes st'')))
  /\
  (forall (value : string) (st : State),
      begins_with_digit value = false ->
      let st' := on_holes_input value st in
      parseInt value = NaN /\
      (NaN <? of_Z 1)%js = false /\
      numHoles st' = NaN /\
      debounceTimer st' = true /\
      (mode st = "single" ->
       exists (st'' : State) (m : Mesh),
         handle TimerFires st' = Some st'' /\
         currentMeshes st'' = [m] /\
         boxHeight_of m = Some NaN /\
         hole_levels m = 0%nat)).
Proof.
  split.
  - intros value st H st'. assert (P := parseFloat_not_decimal value H).
    assert (E : drillRadius st' = NaN).
    { unfold st', on_radius_input. rewrite P. reflexivity. }
    repeat split; try assumption.
    intro Hr. assert (S := reachable_sane st Hr).
    assert (He : Forall ends (blocksToMake (clear_timer st')))
      by exact (sane_ends st S).
    change (handle TimerFires st') with (generateModel (clear_timer st')).
    rewrite (generateModel_spec _ He). eexists. split; [reflexivity|].
    cbn [currentMeshes set_currentMeshes].
    change (drillRadius (clear_timer st')) with (drillRadius st').
    rewrite E. split; [|apply blocks_drilled_with].
    change (blocksToMake (clear_timer st')) with (blocksToMake st).
    unfold blocksToMake. destruct (String.eqb (mode st) "single").
    + discriminate.
    + destruct S as (_ & _ & Bn).
      destruct (batchList st); [contradiction|discriminate].
  - intros value st H st'. assert (P := parseInt_not_digit value H).
    assert (E : numHoles st' = NaN).
    { unfold st', on_holes_input. rewrite P. reflexivity. }
    repeat split; try assumption.
    intro M.
    change (handle TimerFires st') with (generateModel (clear_timer st')).
    assert (B : blocksToMake (clear_timer st') = [NaN]).
    { unfold blocksToMake.
      change (mode (clear_timer st')) with (mode st).
      change (numHoles (clear_timer st')) with (numHoles st').
      rewrite M, E. reflexivity. }
    rewrite generateModel_spec
      by (rewrite B; repeat constructor; discriminate).
    rewrite B. eexists; eexists. split; [reflexivity|].
    split; [reflexivity|]. split; [reflexivity|].
    apply hole_levels_block.
Qed.

Lemma non_numeric_input_is_not_clamped_witness :
  drillRadius (on_radius_input "abc" initial) = NaN /\
  numHoles (on_holes_input "five" initial) = NaN.
Proof.
  split.
  - exact (proj1 (proj2 (proj2
             (proj1 non_numeric_input_is_not_clamped "abc" initial eq_refl)))).
  - exact (proj1 (proj2 (proj2
             (proj2 non_numeric_input_is_not_clamped "five" initial eq_refl)))).
Defined.

(** ** C2: the script describes the preview *)

Lemma Forall2_flat_map (A B : Type) (R : A -> B -> Prop)
    (f : Z -> list A) (g : Z -> list B) :
  (forall i, Forall2 R (f i) (g i)) ->
  forall l, Forall2 R (flat_map f l) (flat_map g l).
Proof.
  intros H l. induction l as [|i l IH]; simpl; [constructor|].
  apply Forall2_app; [apply H | exact IH].
Qed.

Ltac same_place :=
  split; [reflexivity|];
  split; [q_equal|]; split; [q_equal|]; split; q_equal.

Ltac same_cutter :=
  split; [reflexivity|];
  eexists; eexists; split; [reflexivity|]; split; [reflexivity|];
  split; [same_place | q_equal].

Lemma level_agrees (st : State) (r d : Q) (n index i : Z) (h : Q) :
  grooveDepth st = Num d ->
  Forall2 (cutter_agrees h)
    (level_brushes (Num r) (Num d) (of_Z index * BATCH_SPACING)%js
       (of_Z n * HEIGHT_PER_HOLE)%js (BOX_WIDTH / of_Z 2 - Num d + Num r)%js i)
    (level_cylinders (downloadRhinoScript st)
       (inject_Z index * inject_Z 40) (inject_Z n * inject_Z 20)
       (inject_Z 10) (inject_Z 20) (inject_Z 20 / inject_Z 2 - d + r) 80 r i).
Proof.
  intro D. unfold level_brushes, hole_level, level_cylinders, Py.level.
  cbn [downloadRhinoScript lit_level_guard]. rewrite D, gt_zero_Num.
  cbn [Py.lit Py.bind].
  destruct (Qltb 0 d); cbn [cut evaluate app base or_nil];
    repeat (apply Forall2_cons; [same_cutter|]); apply Forall2_nil.
Qed.

Lemma ends_agree (st : State) (r d : Q) (n index : Z) (h : Q) :
  drillRadius st = Num r -> grooveDepth st = Num d ->
  Forall2 (cutter_agrees h)
    (end_brushes (Num r) (Num d) (of_Z index * BATCH_SPACING)%js
       ((of_Z n * HEIGHT_PER_HOLE) / of_Z 2 - Num d + Num r)%js)
    (end_cylinders (downloadRhinoScript st)
       (inject_Z index * inject_Z 40) (inject_Z n * inject_Z 20) 80 r).
Proof.
  intros R D. unfold end_brushes, end_grooves, end_cylinders, Py.end_cutters.
  cbn [downloadRhinoScript lit_ends_guard lit_tb_depth lit_tb_radius].
  rewrite R, D, gt_zero_Num. cbn [Py.lit Py.bind].
  destruct (Qltb 0 d); cbn [cut evaluate app base or_nil];
    repeat (apply Forall2_cons; [same_cutter|]); apply Forall2_nil.
Qed.

Lemma block_agrees (st : State) (r d : Q) (n index : Z) :
  drillRadius st = Num r -> grooveDepth st = Num d ->
  box_agrees (block_of (Num r) (Num d) (of_Z n) index)
             (script_block (downloadRhinoScript st) r
                (inject_Z 20 / inject_Z 2 - d + r) n
                (inject_Z index * inject_Z 40)).
Proof.
  intros R D.
  exists (inject_Z 20), (inject_Z n * inject_Z 20)%Q, (inject_Z 20),
         (inject_Z index * inject_Z 40)%Q.
  split; [reflexivity|]. split; [reflexivity|]. split.
  - unfold script_block. cbv zeta. cbn [Py.base_id].
    repeat constructor; cbn [fst snd]; q_equal.
  - unfold block_of, script_block. cbv zeta. cbn [cut Py.cutters].
    constructor.
    + split; [reflexivity|].
      eexists; eexists; split; [reflexivity|]; split; [reflexivity|].
      split; [same_place|].
      cbn [name length]. split.
      * rewrite <- (Qplus_0_r (inject_Z n * inject_Z 20)) at 1.
        apply Qplus_lt_r. reflexivity.
      * rewrite <- (Qplus_0_r (inject_Z n * inject_Z 20)) at 1.
        apply Qplus_lt_r. reflexivity.
    + apply Forall2_app.
      * rewrite trips_of_Z. apply Forall2_flat_map. intro i.
        apply level_agrees, D.
      * apply (ends_agree st r d n index _ R D).
Qed.

Lemma blocks_agree (st : State) (r d : Q) :
  drillRadius st = Num r -> grooveDepth st = Num d ->
  forall (ns : list Z) (index : Z),
    Forall2 box_agrees
      (blocks_from (Num r) (Num d) (map of_Z ns) index)
      (script_blocks (downloadRhinoScript st) r
         (inject_Z 20 / inject_Z 2 - d + r) ns index).
Proof.
  intros R D ns. induction ns as [|n ns IH]; intro index; simpl;
    constructor; [apply (block_agrees st r d n index R D) | apply IH].
Qed.

(** C2.  For every state with a finite radius, a finite depth and
    integer hole counts, the values the script prints are the values the
    mesh pipeline uses, and running the script builds, block by block,
    the boxes and the cutters of the preview: the same box, and cutter by
    cutter the same role, axis, centre and radius, with the same length
    but for the vertical hole, which passes through the whole box in
    both. *)
Theorem script_describes_preview (st : State) (r d : Q) (ns : list Z) :
  drillRadius st = Num r -> grooveDepth st = Num d ->
  blocksToMake st = map of_Z ns ->
  let sc := downloadRhinoScript st in
  (lit_radius sc = drillRadius st /\ lit_tb_radius sc = drillRadius st /\
   lit_level_guard sc = grooveDepth st /\ lit_ends_guard sc = grooveDepth st /\
   lit_tb_depth sc = grooveDepth st /\
   lit_width sc = BOX_WIDTH /\ lit_depth sc = BOX_DEPTH /\
   lit_height_per_hole sc = HEIGHT_PER_HOLE /\
   lit_offset sc = FIRST_HOLE_OFFSET /\ lit_step_size sc = HOLE_STEP /\
   lit_groove_offset sc
   = (BOX_WIDTH / of_Z 2 - grooveDepth st + drillRadius st)%js /\
   lit_spacing sc = BATCH_SPACING /\ lit_blocks sc = blocksToMake st)
  /\
  exists (st' : State) (blocks : list Py.Block),
    generateModel st = Some st' /\
    Py.main sc = Some blocks /\
    Forall2 box_agrees (currentMeshes st') blocks.
Proof.
  intros R D B sc. split; [repeat split|].
  assert (He : Forall ends (blocksToMake st)).
  { rewrite B. apply Forall_forall. intros h Hh.
    apply in_map_iff in Hh. destruct Hh as (z & <- & _). apply ends_of_Z. }
  rewrite (generateModel_spec st He). unfold sc.
  rewrite (main_spec st r d ns R D B).
  eexists; eexists. split; [reflexivity|]. split; [reflexivity|].
  cbn [currentMeshes set_currentMeshes]. rewrite R, D, B.
  apply (blocks_agree st r d R D).
Qed.

Lemma script_describes_preview_witness :
  exists (st' : State) (blocks : list Py.Block),
    generateModel initial = Some st' /\
    Py.main (downloadRhinoScript initial) = Some blocks /\
    Forall2 box_agrees (currentMeshes st') blocks.
Proof.
  exact (proj2 (script_describes_preview initial 4 (1 # 2) [5]
                  eq_refl eq_refl eq_refl)).
Defined.

(** * Further properties of the generator *)

(** ** One block per hole count *)

Lemma blocks_from_indexed (r d : number) (blocks : list number) :
  forall index : Z,
    Forall2 (fun m ih => m = block_of r d (snd ih) (fst ih))
            (blocks_from r d blocks index) (indexed index blocks).
Proof.
  induction blocks as [|h t IH]; intro index; simpl; constructor;
    [reflexivity | apply IH].
Qed.


(** X1.  Whenever every hole loop ends, [generateModel] leaves one mesh
    per hole count, in order: the mesh of the hole count [holes] at
    index [i] is centred at [i * 40], its box is [holes * 20] high, and
    it has as many hole levels as the loop has passes: none for [NaN] or
    a count below one, [z] for an integer [z >= 0]. *)
Theorem one_mesh_per_hole_count (st : State) :
  Forall ends (blocksToMake st) ->
  exists st' : State,
    generateModel st = Some st' /\
    Forall2 (fun m ih =>
               block_centre m = (of_Z (fst ih) * BATCH_SPACING)%js /\
               boxHeight_of m = Some (snd ih * HEIGHT_PER_HOLE)%js /\
               (snd ih = NaN -> hole_levels m = 0%nat) /\
               (forall z : Z, snd ih = of_Z z ->
                              Z.of_nat (hole_levels m) = Z.max 0 z))
            (currentMeshes st') (indexed 0 (blocksToMake st)).
Proof.
  intro He. rewrite (generateModel_spec st He). eexists.
  split; [reflexivity|]. cbn [currentMeshes set_currentMeshes].
  eapply Forall2_impl; [|apply blocks_from_indexed].
  intros m [i h] ->. cbn [fst snd].
  split; [reflexivity|]. split; [reflexivity|].
  rewrite hole_levels_block. split.
  - intros ->. reflexivity.
  - intros z ->. rewrite trips_of_Z. lia.
Qed.

Lemma one_mesh_per_hole_count_witness :
  exists st' : State,
    generateModel (on_mode_change "batch" initial) = Some st' /\
    Forall2 (fun m ih =>
               block_centre m = (of_Z (fst ih) * BATCH_SPACING)%js /\
               boxHeight_of m = Some (snd ih * HEIGHT_PER_HOLE)%js /\
               (snd ih = NaN -> hole_levels m = 0%nat) /\
               (forall z : Z, snd ih = of_Z z ->
                              Z.of_nat (hole_levels m) = Z.max 0 z))
            (currentMeshes st')
            (indexed 0 (blocksToMake (on_mode_change "batch" initial))).
Proof.
  apply (one_mesh_per_hole_count (on_mode_change "batch" initial)).
  repeat constructor; discriminate.
Defined.



(** ** The hole levels sit in the middle of their cells *)

Lemma In_upto (k : nat) :
  forall a i : Z, In i (upto a k) <-> a <= i < a + Z.of_nat k.
Proof.
  induction k as [|k IH]; intros a i; simpl.
  - lia.
  - rewrite IH. lia.
Qed.

Lemma in_block_levels (r d holes : number) (index : Z) (b : Brush) :
  In b (cut (block_of r d holes index)) ->
  family (name b) = Through \/ family (name b) = SideGroove ->
  exists i, 0 <= i < Z.of_nat (trips holes) /\
            In b (level_brushes r d (of_Z index * BATCH_SPACING)%js
                    (holes * HEIGHT_PER_HOLE)%js
                    (BOX_WIDTH / of_Z 2 - d + r)%js i).
Proof.
  unfold block_of. cbv zeta. simpl cut.
  intros [<- | H] F; [destruct F; discriminate|].
  apply in_app_or in H. destruct H as [H | H].
  - apply in_flat_map in H. destruct H as (i & Hi & H).
    apply In_upto in Hi. exists i. split; [lia | exact H].
  - exfalso. unfold end_brushes, end_grooves in H.
    destruct (d >? of_Z 0)%js; cbn [cut evaluate app base] in H.
    + destruct H as [<- | [<- | [<- | [<- | []]]]]; destruct F; discriminate.
    + destruct H.
Qed.

Lemma level_in_block (r d holes : number) (index i : Z) (b : Brush) :
  0 <= i < Z.of_nat (trips holes) ->
  In b (level_brushes r d (of_Z index * BATCH_SPACING)%js
          (holes * HEIGHT_PER_HOLE)%js (BOX_WIDTH / of_Z 2 - d + r)%js i) ->
  In b (cut (block_of r d holes index)).
Proof.
  intros Hi H. unfold block_of. cbv zeta. simpl cut. right.
  apply in_or_app. left. apply in_flat_map. exists i.
  split; [apply In_upto; lia | exact H].
Qed.

Lemma level_height (r d x s : number) (n i : Z) (b : Brush) :
  In b (level_brushes r d x (of_Z n * HEIGHT_PER_HOLE)%js s i) ->
  same (vy (position b)) (Num (cell_middle n i)).
Proof.
  unfold level_brushes, hole_level.
  destruct (d >? of_Z 0)%js; cbn [cut evaluate app base].
  - intros [<- | [<- | [<- | [<- | [<- | [<- | []]]]]]];
      unfold cell_middle; simpl; field.
  - intros [<- | [<- | []]]; unfold cell_middle; simpl; field.
Qed.

(** X3.  In a block of [n] hole levels every through-hole and every
    side-groove cutter of the preview is centred, along the long axis,
    on the middle of one of the [n] cells of height [20] the box is made
    of, so the holes are [20] apart and [10] away from both ends, and
    the grooves of a level are level with its holes; and every cell has
    its two through-holes. *)
Theorem hole_levels_in_cell_middles (n : Z) (r d : number) (index : Z) :
  exists m : Mesh,
    make_block r d (of_Z n) index = Some m /\
    (forall b : Brush,
        In b (cut m) ->
        family (name b) = Through \/ family (name b) = SideGroove ->
        exists i : Z,
          0 <= i < n /\ same (vy (position b)) (Num (cell_middle n i))) /\
    (forall i : Z,
        0 <= i < n ->
        exists bx bz : Brush,
          In bx (cut m) /\ In bz (cut m) /\
          name bx = xBrush /\ name bz = zBrush /\
          same (vy (position bx)) (Num (cell_middle n i)) /\
          same (vy (position bz)) (Num (cell_middle n i))).
Proof.
  exists (block_of r d (of_Z n) index).
  split; [apply make_block_spec, ends_of_Z|]. split.
  - intros b Hb F. destruct (in_block_levels _ _ _ _ _ Hb F) as (i & Hi & H).
    rewrite trips_of_Z in Hi. exists i. split; [lia|].
    apply (level_height _ _ _ _ _ _ _ H).
  - intros i Hi.
    assert (Hi' : 0 <= i < Z.of_nat (trips (of_Z n)))
      by (rewrite trips_of_Z; lia).
    pose (lv := level_brushes r d (of_Z index * BATCH_SPACING)%js
                  (of_Z n * HEIGHT_PER_HOLE)%js
                  (BOX_WIDTH / of_Z 2 - d + r)%js i).
    assert (Hx : exists bx bz, In bx lv /\ In bz lv /\
                               name bx = xBrush /\ name bz = zBrush).
    { unfold lv, level_brushes, hole_level.
      destruct (d >? of_Z 0)%js; cbn [cut evaluate app base];
        eexists; eexists;
        (split; [left; reflexivity|]);
        (split; [right; left; reflexivity|]); split; reflexivity. }
    destruct Hx as (bx & bz & Ix & Iz & Nx & Nz).
    exists bx, bz.
    split; [apply (level_in_block _ _ _ _ _ _ Hi' Ix)|].
    split; [apply (level_in_block _ _ _ _ _ _ Hi' Iz)|].
    split; [exact Nx|]. split; [exact Nz|].
    split; [apply (level_height _ _ _ _ _ _ _ Ix)
           | apply (level_height _ _ _ _ _ _ _ Iz)].
Qed.

Lemma hole_levels_in_cell_middles_witness :
  exists (m : Mesh) (bx : Brush),
    make_block (of_Z 4) half (of_Z 3) 0 = Some m /\
    In bx (cut m) /\ name bx = xBrush /\
    same (vy (position bx)) (Num (cell_middle 3 2)).
Proof.
  destruct (hole_levels_in_cell_middles 3 (of_Z 4) half 0)
    as (m & Hm & _ & H).
  destruct (H 2 ltac:(lia)) as (bx & _ & Ix & _ & Nx & _ & Sx & _).
  exists m, bx. repeat split; assumption.
Defined.

(** ** The blocks of a batch stand apart *)

Lemma nth_blocks_from (r d : number) (blocks : list number) :
  forall (index : Z) (k : nat) (m : Mesh),
    nth_error (blocks_from r d blocks index) k = Some m ->
    exists holes, m = block_of r d holes (index + Z.of_nat k).
Proof.
  induction blocks as [|h t IH]; intros index k m H.
  - destruct k; discriminate H.
  - destruct k as [|k]; simpl in H.
    + injection H as <-. exists h. f_equal. lia.
    + destruct (IH _ _ _ H) as (h' & ->). exists h'. f_equal. lia.
Qed.

Lemma nth_script_blocks (sc : RhinoScript) (r g : Q) (ns : list Z) :
  forall (i : Z) (k : nat) (b : Py.Block),
    nth_error (script_blocks sc r g ns i) k = Some b ->
    exists n, b = script_block sc r g n
                    (inject_Z (i + Z.of_nat k) * inject_Z 40).
Proof.
  induction ns as [|n t IH]; intros i k b H.
  - destruct k; discriminate H.
  - destruct k as [|k]; simpl in H.
    + injection H as <-. exists n. do 3 f_equal. lia.
    + destruct (IH _ _ _ H) as (n' & ->). exists n'. do 3 f_equal. lia.
Qed.

Lemma apart (i j : Z) :
  i < j ->
  (inject_Z i * inject_Z 40 + inject_Z 20 / 2 + 20
   <= inject_Z j * inject_Z 40 - inject_Z 20 / 2)%Q.
Proof.
  intro H.
  assert (L : (inject_Z i + 1 <= inject_Z j)%Q).
  { change 1%Q with (inject_Z 1). rewrite <- inject_Z_plus.
    rewrite <- Zle_Qle. lia. }
  change (inject_Z 40) with 40%Q. change (inject_Z 20) with 20%Q.
  assert (E : (20 / 2 == 10)%Q) by reflexivity. rewrite E. lra.
Qed.

(** X4.  Between the boxes of any two blocks of a batch there is a gap
    of at least [20] along X: the box of an earlier block ends [20] or
    more before the box of a later one begins, in the preview and in the
    blocks the script adds. *)
Theorem blocks_stand_apart (st : State) :
  (Forall ends (blocksToMake st) ->
   exists st' : State,
     generateModel st = Some st' /\
     forall (i j : nat) (m1 m2 : Mesh),
       (i < j)%nat ->
       nth_error (currentMeshes st') i = Some m1 ->
       nth_error (currentMeshes st') j = Some m2 ->
       exists e b : Q,
         box_right m1 = Some e /\ box_left m2 = Some b /\ (e + 20 <= b)%Q)
  /\
  (forall (r d : Q) (ns : list Z),
      drillRadius st = Num r -> grooveDepth st = Num d ->
      blocksToMake st = map of_Z ns ->
      exists blocks : list Py.Block,
        Py.main (downloadRhinoScript st) = Some blocks /\
        forall (i j : nat) (b1 b2 : Py.Block),
          (i < j)%nat ->
          nth_error blocks i = Some b1 -> nth_error blocks j = Some b2 ->
          exists e b : Q,
            script_right b1 = Some e /\ script_left b2 = Some b /\
            (e + 20 <= b)%Q).
Proof.
  split.
  - intro He. rewrite (generateModel_spec st He). eexists.
    split; [reflexivity|]. cbn [currentMeshes set_currentMeshes].
    intros i j m1 m2 Lt H1 H2.
    destruct (nth_blocks_from _ _ _ _ _ _ H1) as (h1 & ->).
    destruct (nth_blocks_from _ _ _ _ _ _ H2) as (h2 & ->).
    eexists; eexists. split; [reflexivity|]. split; [reflexivity|].
    apply apart. lia.
  - intros r d ns R D B. rewrite (main_spec st r d ns R D B). eexists.
    split; [reflexivity|].
    intros i j b1 b2 Lt H1 H2.
    destruct (nth_script_blocks _ _ _ _ _ _ _ H1) as (n1 & ->).
    destruct (nth_script_blocks _ _ _ _ _ _ _ H2) as (n2 & ->).
    eexists; eexists. split; [reflexivity|]. split; [reflexivity|].
    apply apart. lia.
Qed.

Lemma blocks_stand_apart_witness :
  (exists st' : State,
      generateModel (on_mode_change "batch" initial) = Some st' /\
      forall (i j : nat) (m1 m2 : Mesh),
        (i < j)%nat ->
        nth_error (currentMeshes st') i = Some m1 ->
        nth_error (currentMeshes st') j = Some m2 ->
        exists e b : Q,
          box_right m1 = Some e /\ box_left m2 = Some b /\ (e + 20 <= b)%Q)
  /\
  exists blocks : list Py.Block,
    Py.main (downloadRhinoScript (on_mode_change "batch" initial))
    = Some blocks /\
    forall (i j : nat) (b1 b2 : Py.Block),
      (i < j)%nat ->
      nth_error blocks i = Some b1 -> nth_error blocks j = Some b2 ->
      exists e b : Q,
        script_right b1 = Some e /\ script_left b2 = Some b /\
        (e + 20 <= b)%Q.
Proof.
  destruct (blocks_stand_apart (on_mode_change "batch" initial)) as [M S].
  split.
  - apply M. repeat constructor; discriminate.
  - exact (S 4%Q (1 # 2)%Q [3; 2; 5] eq_refl eq_refl eq_refl).
Defined.

(** ** Every cutter passes through the box *)

Ltac q_const :=
  repeat match goal with
         | |- context [inject_Z (Zpos ?p)] =>
             change (inject_Z (Zpos p)) with (Zpos p # 1)
         | |- context [inject_Z Z0] => change (inject_Z Z0) with (0 # 1)
         end.

(** [a <= b] when [b - a] is the constant [0] or [20]. *)
Ltac q_gap :=
  apply Qle_minus_iff;
  match goal with
  | |- (0 <= ?e)%Q =>
      first [ setoid_replace e with 0%Q by (q_const; field)
            | setoid_replace e with 20%Q by (q_const; field) ]
  end;
  discriminate.

Ltac corner_side := first [left; solve [q_equal] | right; solve [q_equal]].

Ltac corner :=
  unfold corner_of_box; cbn [Py.px Py.py Py.pz];
  split; [corner_side|]; split; corner_side.

Ltac through_box :=
  eexists; split; [reflexivity|];
  unfold passes_through, cutter_low, cutter_high;
  cbn [along axis centre_x centre_y centre_z length rotation
       Py.px Py.py Py.pz Py.origin Py.normal Py.cyl_height Py.cyl_radius];
  split; q_gap.

(** X5.  Whatever the hole count, the position and the finite radius and
    depth, every cutter of a block sticks out of the block's box at both
    ends of its axis: by [10] or more in the preview and by [30] or more
    in the script, so no cut ends inside the box. *)
Theorem cutters_pass_through (n : Z) (r d : Q) (index : Z) :
  let x0 := (inject_Z index * inject_Z 40)%Q in
  let h := (inject_Z n * inject_Z 20)%Q in
  (exists m : Mesh,
      make_block (Num r) (Num d) (of_Z n) index = Some m /\
      geometry (base m) = BoxGeometry (Num 20) (Num h) (Num 20) /\
      position (base m) = vec3 (Num x0) (of_Z 0) (of_Z 0) /\
      forall b : Brush,
        In b (cut m) ->
        exists p : Cutter,
          brush_cutter b = Some p /\ passes_through 10 x0 20 h 20 p)
  /\
  (forall st : State,
      drillRadius st = Num r -> grooveDepth st = Num d ->
      exists blk : Py.Block,
        Py.create_block (downloadRhinoScript st) (inject_Z n) x0 = Some blk /\
        Forall (corner_of_box x0 20 h 20) (Py.base_id blk) /\
        forall c : Py.Cylinder,
          In c (Py.cutters blk) ->
          exists q : Cutter,
            cylinder_cutter c = Some q /\ passes_through 30 x0 20 h 20 q).
Proof.
  intros x0 h. split.
  - exists (block_of (Num r) (Num d) (of_Z n) index).
    split; [apply make_block_spec, ends_of_Z|].
    split; [reflexivity|]. split; [reflexivity|].
    intros b Hb. unfold block_of in Hb. cbv zeta in Hb. simpl cut in Hb.
    destruct Hb as [<- | Hb]; [unfold x0, h; through_box|].
    apply in_app_or in Hb. destruct Hb as [Hb | Hb].
    + apply in_flat_map in Hb. destruct Hb as (i & _ & Hb).
      unfold level_brushes, hole_level in Hb.
      destruct (Num d >? of_Z 0)%js; cbn [cut evaluate app base] in Hb.
      * destruct Hb as [<- | [<- | [<- | [<- | [<- | [<- | []]]]]]];
          unfold x0, h; through_box.
      * destruct Hb as [<- | [<- | []]]; unfold x0, h; through_box.
    + unfold end_brushes, end_grooves in Hb.
      destruct (Num d >? of_Z 0)%js; cbn [cut evaluate app base] in Hb.
      * destruct Hb as [<- | [<- | [<- | [<- | []]]]];
          unfold x0, h; through_box.
      * destruct Hb.
  - intros st R D.
    eexists. split; [apply (create_block_spec _ _ _ _ _ R D)|].
    split.
    { unfold script_block. cbv zeta. cbn [Py.base_id].
      unfold x0, h. repeat (apply Forall_cons; [corner|]). apply Forall_nil. }
    intros c Hc. unfold script_block in Hc. cbv zeta in Hc.
    simpl Py.cutters in Hc.
    destruct Hc as [<- | Hc]; [unfold x0, h; through_box|].
    apply in_app_or in Hc. destruct Hc as [Hc | Hc].
    + apply in_flat_map in Hc. destruct Hc as (i & _ & Hc).
      unfold level_cylinders, Py.level in Hc.
      cbn [downloadRhinoScript lit_level_guard] in Hc. rewrite D in Hc.
      cbn [Py.lit Py.bind] in Hc.
      destruct (Qltb 0 d); cbn [or_nil app] in Hc.
      * destruct Hc as [<- | [<- | [<- | [<- | [<- | [<- | []]]]]]];
          unfold x0, h; through_box.
      * destruct Hc as [<- | [<- | []]]; unfold x0, h; through_box.
    + unfold end_cylinders, Py.end_cutters in Hc.
      cbn [downloadRhinoScript lit_ends_guard lit_tb_depth lit_tb_radius] in Hc.
      rewrite D, R in Hc. cbn [Py.lit Py.bind] in Hc.
      destruct (Qltb 0 d); cbn [or_nil app] in Hc.
      * destruct Hc as [<- | [<- | [<- | [<- | []]]]];
          unfold x0, h; through_box.
      * destruct Hc.
Qed.

Lemma cutters_pass_through_witness :
  exists blk : Py.Block,
    Py.create_block (downloadRhinoScript initial) (inject_Z 5)
                    (inject_Z 1 * inject_Z 40) = Some blk /\
    Forall (corner_of_box (inject_Z 1 * inject_Z 40) 20
                          (inject_Z 5 * inject_Z 20) 20)
           (Py.base_id blk) /\
    forall c : Py.Cylinder,
      In c (Py.cutters blk) ->
      exists q : Cutter,
        cylinder_cutter c = Some q /\
        passes_through 30 (inject_Z 1 * inject_Z 40) 20
                       (inject_Z 5 * inject_Z 20) 20 q.
Proof.
  exact (proj2 (cutters_pass_through 5 4 (1 # 2) 1) initial eq_refl eq_refl).
Defined.

(** ** The block is the same upside down *)

Lemma inject_Z_sub (a b : Z) : inject_Z (a - b) = (inject_Z a - inject_Z b)%Q.
Proof.
  unfold Z.sub, Qminus. rewrite inject_Z_plus, inject_Z_opp. reflexivity.
Qed.

Ltac q_mirror :=
  cbn [centre_x centre_y centre_z radius length];
  rewrite ?inject_Z_sub; q_const; first [ring | field].

Ltac mirror_cutter :=
  split; [reflexivity|];
  eexists; eexists; split; [reflexivity|]; split; [reflexivity|];
  split; [reflexivity|];
  split; [q_mirror|]; split; [q_mirror|]; split; [q_mirror|]; split; q_mirror.

Ltac pick k :=
  lazymatch k with
  | O => left; reflexivity
  | S ?k' => right; pick k'
  end.

(** The brushes of the levels [i] and [n - 1 - i] mirror each other. *)
Lemma level_mirrored (r d : Q) (n index i : Z) (b : Brush) :
  let lv := level_brushes (Num r) (Num d) (of_Z index * BATCH_SPACING)%js
              (of_Z n * HEIGHT_PER_HOLE)%js
              (BOX_WIDTH / of_Z 2 - Num d + Num r)%js in
  In b (lv i) ->
  exists b' : Brush,
    In b' (lv (n - 1 - i)) /\ family (name b') = family (name b) /\
    exists p p' : Cutter,
      brush_cutter b = Some p /\ brush_cutter b' = Some p' /\ mirrored p p'.
Proof.
  intro lv. unfold lv, level_brushes, hole_level.
  destruct (Num d >? of_Z 0)%js; cbn [cut evaluate app base].
  - intros [<- | [<- | [<- | [<- | [<- | [<- | []]]]]]];
      eexists;
      [> (split; [pick 0%nat|]) | (split; [pick 1%nat|])
       | (split; [pick 2%nat|]) | (split; [pick 3%nat|])
       | (split; [pick 4%nat|]) | (split; [pick 5%nat|]) ];
      mirror_cutter.
  - intros [<- | [<- | []]];
      eexists;
      [> (split; [pick 0%nat|]) | (split; [pick 1%nat|]) ];
      mirror_cutter.
Qed.

Lemma ends_mirrored (r d : Q) (n index : Z) (b : Brush) :
  let es := end_brushes (Num r) (Num d) (of_Z index * BATCH_SPACING)%js
              ((of_Z n * HEIGHT_PER_HOLE) / of_Z 2 - Num d + Num r)%js in
  In b es ->
  exists b' : Brush,
    In b' es /\ family (name b') = family (name b) /\
    exists p p' : Cutter,
      brush_cutter b = Some p /\ brush_cutter b' = Some p' /\ mirrored p p'.
Proof.
  intro es. unfold es, end_brushes, end_grooves.
  destruct (Num d >? of_Z 0)%js; cbn [cut evaluate app base].
  - intros [<- | [<- | [<- | [<- | []]]]];
      eexists;
      [> (split; [pick 2%nat|]) | (split; [pick 3%nat|])
       | (split; [pick 0%nat|]) | (split; [pick 1%nat|]) ];
      mirror_cutter.
  - intros [].
Qed.

(** X6.  Every block of the preview is symmetric top to bottom: for each
    cutter subtracted from the box, the cutter of the same family with
    the same axis, radius, length and horizontal position, but mirrored
    in the plane through the middle of the box, is subtracted too. *)
Theorem block_is_symmetric (n : Z) (r d : Q) (index : Z) :
  exists m : Mesh,
    make_block (Num r) (Num d) (of_Z n) index = Some m /\
    forall b : Brush,
      In b (cut m) ->
      exists b' : Brush,
        In b' (cut m) /\ family (name b') = family (name b) /\
        exists p p' : Cutter,
          brush_cutter b = Some p /\ brush_cutter b' = Some p' /\
          mirrored p p'.
Proof.
  exists (block_of (Num r) (Num d) (of_Z n) index).
  split; [apply make_block_spec, ends_of_Z|].
  intros b Hb. unfold block_of in *. cbv zeta in *. cbn [cut] in *.
  rewrite trips_of_Z in *.
  destruct Hb as [<- | Hb].
  - eexists. split; [left; reflexivity|]. mirror_cutter.
  - apply in_app_or in Hb. destruct Hb as [Hb | Hb].
    + apply in_flat_map in Hb. destruct Hb as (i & Hi & Hb).
      apply In_upto in Hi.
      destruct (level_mirrored r d n index i b Hb) as (b' & Hb' & F).
      exists b'. split; [|exact F].
      right. apply in_or_app. left. apply in_flat_map.
      exists (n - 1 - i). split; [apply In_upto; lia | exact Hb'].
    + destruct (ends_mirrored r d n index b Hb) as (b' & Hb' & F).
      exists b'. split; [|exact F].
      right. apply in_or_app. right. exact Hb'.
Qed.

Lemma block_is_symmetric_witness :
  exists (m : Mesh) (b b' : Brush) (p p' : Cutter),
    make_block (Num 4) (Num (1 # 2)) (of_Z 3) 0 = Some m /\
    In b (cut m) /\ name b = xBrush /\ In b' (cut m) /\
    brush_cutter b = Some p /\ brush_cutter b' = Some p' /\ mirrored p p'.
Proof.
  destruct (block_is_symmetric 3 4 (1 # 2) 0) as (m & Hm & H).
  assert (E : m = block_of (Num 4) (Num (1 # 2)) (of_Z 3) 0).
  { rewrite (make_block_spec _ _ _ _ (ends_of_Z 3)) in Hm.
    injection Hm as <-. reflexivity. }
  assert (I : exists b, In b (cut m) /\ name b = xBrush).
  { rewrite E. eexists. split; [right; left; reflexivity | reflexivity]. }
  destruct I as (b & Ib & Nb).
  destruct (H b Ib) as (b' & Ib' & _ & p & p' & Hp & Hp' & M).
  exists m, b, b', p, p'.
  exact (conj Hm (conj Ib (conj Nb (conj Ib' (conj Hp (conj Hp' M)))))).
Defined.

(** ** The batch field is read entry by entry *)

Lemma split_comma_not_nil (s : string) : split_comma s <> [].
Proof.
  destruct s as [|c t]; simpl; [discriminate|].
  destruct (Ascii.eqb c ","); [discriminate|].
  destruct (split_comma t); discriminate.
Qed.

Lemma split_comma_app (a b : string) :
  split_comma (a ++ String "," b)%string = split_comma a ++ split_comma b.
Proof.
  induction a as [|c a IH]; simpl.
  - reflexivity.
  - rewrite IH. destruct (Ascii.eqb c ","); [reflexivity|].
    destruct (split_comma a) as [|h t] eqn:E; [|reflexivity].
    exfalso. exact (split_comma_not_nil a E).
Qed.

(** X7.  The list read from two texts joined by a comma is the list read
    from the first followed by the list read from the second: the
    entries of the batch field are read one by one, in order, and what
    one entry holds never changes how another is read. *)
Theorem parse_batch_app (a b : string) :
  parse_batch (a ++ String "," b)%string = parse_batch a ++ parse_batch b.
Proof.
  unfold parse_batch. rewrite split_comma_app, map_app, filter_app.
  reflexivity.
Qed.

(** ** When the script can run *)








(** ** What is on display when nothing is pending *)

Lemma input_arms_timer (e : Event) (st st' : State) :
  is_input e = true -> handle e st = Some st' ->
  debounceTimer st' = true /\ currentMeshes st' = currentMeshes st.
Proof.
  intros I H. destruct e; try discriminate I; simpl in H;
    injection H as <-; split; try reflexivity.
  unfold on_batch_input. destruct (_ <? _); reflexivity.
Qed.

Lemma idle_meshes (st : State) :
  reachable st -> debounceTimer st = false ->
  currentMeshes st
  = blocks_from (drillRadius st) (grooveDepth st) (blocksToMake st) 0.
Proof.
  induction 1 as [|st e st' Hr IH H]; [discriminate|].
  intro T'. destruct (is_input e) eqn:I.
  - destruct (input_arms_timer e st st' I H) as [T _]. congruence.
  - destruct e; try discriminate I. simpl in H.
    destruct (debounceTimer st) eqn:T.
    + assert (He : Forall ends (blocksToMake (clear_timer st)))
        by exact (sane_ends st (reachable_sane st Hr)).
      rewrite (generateModel_spec _ He) in H. injection H as <-.
      reflexivity.
    + injection H as <-. exact (IH eq_refl).
Qed.

(** X9.  On every state a session reaches with no regeneration pending,
    the meshes on display are exactly those [generateModel] builds from
    the current parameters: running it again would change nothing. *)
Theorem preview_is_current_when_idle (st : State) :
  reachable st -> debounceTimer st = false -> generateModel st = Some st.
Proof.
  intros Hr T.
  rewrite (generateModel_spec st (sane_ends st (reachable_sane st Hr))).
  rewrite <- (idle_meshes st Hr T). destruct st. reflexivity.
Qed.

Lemma preview_is_current_when_idle_witness :
  exists st : State,
    handle TimerFires (on_depth_input "1.5" initial) = Some st /\
    generateModel st = Some st.
Proof.
  eexists. split; [reflexivity|].
  apply preview_is_current_when_idle; [|reflexivity].
  apply (reach_handle (on_depth_input "1.5" initial) TimerFires);
    [|reflexivity].
  apply (reach_handle initial (DepthInput "1.5")); [|reflexivity].
  exact reach_initial.
Defined.



(** ** The debounce *)

Lemma regenerations_clear (v : option nat) (ts : list Timeout) :
  regenerations (clearTimeout v ts) = clearTimeout v (regenerations ts).
Proof.
  destruct v as [n|]; [|reflexivity]. unfold regenerations, clearTimeout.
  induction ts as [|x ts IH]; [reflexivity|]. cbn [filter].
  destruct (negb (Nat.eqb (handle_of x) n)) eqn:A;
    destruct (is_regeneration x) eqn:B;
    cbn [filter]; rewrite ?A, ?B, IH; reflexivity.
Qed.

Lemma regenerations_app (a b : list Timeout) :
  regenerations (a ++ b) = (regenerations a ++ regenerations b)%list.
Proof. apply filter_app. Qed.

Lemma clear_the_timer (past : list (Z * Happening)) (s : Timed) :
  timer_after past s ->
  regenerations (clearTimeout (timer_variable s) (timeouts s)) = [].
Proof.
  intros (_ & _ & [E | (h & t0 & E & V & _)]); rewrite regenerations_clear, E.
  - destruct (timer_variable s); reflexivity.
  - rewrite V. simpl. rewrite Nat.eqb_refl. reflexivity.
Qed.

Lemma pending_timer (past : list (Z * Happening)) (s : Timed) (h : nat)
    (x : Timeout) :
  timer_after past s -> pending h (timeouts s) = Some x ->
  is_regeneration x = true ->
  regenerations (timeouts s) = [x] /\ handle_of x = h /\ 300 <= due x /\
  forall t e, In (t, e) past -> is_Input e = true -> t + 300 <= due x.
Proof.
  intros (_ & _ & Inv) P R. unfold pending in P. apply find_some in P.
  destruct P as [I Hh]. apply Nat.eqb_eq in Hh.
  assert (I' : In x (regenerations (timeouts s)))
    by (apply filter_In; split; assumption).
  destruct Inv as [E | (h' & t' & E & _ & L0 & L)]; rewrite E in I'.
  - destruct I'.
  - destruct I' as [<- | []]. cbn [due handle_of] in *.
    split; [exact E|]. split; [exact Hh|]. split; assumption.
Qed.


Lemma at_time_keeps (past : list (Z * Happening)) (t : Z) (what : Happening)
    (s s' : Timed) :
  timer_after past s -> at_time t what s = Some s' ->
  timer_after (past ++ [(t, what)]) s'.
Proof.
  intros Inv H. assert (Inv' := Inv). destruct Inv' as (N0 & Np & Nr).
  unfold at_time in H.
  destruct (Z.ltb_spec t (now s)) as [|Le]; [discriminate|].
  assert (P : forall t1 e1, In (t1, e1) (past ++ [(t, what)]) -> t1 <= t).
  { intros t1 e1 I. apply in_app_or in I. destruct I as [I | [[= <- <-] | []]].
    - specialize (Np t1 e1 I). lia.
    - lia. }
  assert (Q : is_Input what = false ->
              forall t0 : Z,
                (forall t1 e1, In (t1, e1) past -> is_Input e1 = true ->
                               t1 + 300 <= t0) ->
                forall t1 e1, In (t1, e1) (past ++ [(t, what)]) ->
                              is_Input e1 = true -> t1 + 300 <= t0).
  { intros W t0 L t1 e1 I I1. apply in_app_or in I.
    destruct I as [I | [[= <- <-] | []]]; [exact (L t1 e1 I I1)|].
    rewrite W in I1. discriminate I1. }
  destruct what as [e | h | | h].
  - destruct (is_input e); [|discriminate H].
    destruct (handle e (page s)) as [st|]; [|discriminate H].
    unfold setTimeout in H. cbv beta iota zeta in H.
    injection H as <-. unfold timer_after. cbn [now timeouts timer_variable].
    split; [lia|]. split; [exact P|]. right.
    exists (next_handle s), (t + 300).
    rewrite regenerations_app, (clear_the_timer past s Inv).
    split; [reflexivity|]. split; [reflexivity|]. split; [lia|].
    intros t1 e1 I1 _. specialize (P t1 e1 I1). lia.
  - destruct (pending h (timeouts s)) as [x|] eqn:Pd; [|discriminate H].
    destruct (is_regeneration x) eqn:R; [|discriminate H].
    destruct (pending_timer past s h x Inv Pd R) as (E & Hh & _ & _).
    destruct (due x <=? t); [|discriminate H]. cbn [andb] in H.
    destruct (generateModel _) as [st|]; [|discriminate H].
    injection H as <-. unfold timer_after. cbn [now timeouts timer_variable].
    split; [lia|]. split; [exact P|]. left.
    change (filter (fun x0 : Timeout => negb (Nat.eqb (handle_of x0) h))
                   (timeouts s))
      with (clearTimeout (Some h) (timeouts s)).
    rewrite regenerations_clear, E. simpl.
    rewrite Hh, Nat.eqb_refl. reflexivity.
  - injection H as <-. unfold downloadFile, setTimeout, timer_after.
    cbn [now timeouts timer_variable].
    rewrite regenerations_app. cbn [regenerations filter is_regeneration task].
    rewrite List.app_nil_r.
    split; [lia|]. split; [exact P|].
    destruct Nr as [E | (h' & t' & E & V & L0 & L)]; [left; exact E|].
    right. exists h', t'. split; [exact E|]. split; [exact V|].
    split; [exact L0|]. exact (Q eq_refl t' L).
  - destruct (pending h (timeouts s)) as [x|] eqn:Pd; [|discriminate H].
    destruct (negb (is_regeneration x) && (due x <=? t)); [|discriminate H].
    injection H as <-. unfold timer_after. cbn [now timeouts timer_variable].
    split; [lia|]. split; [exact P|].
    change (filter (fun x0 : Timeout => negb (Nat.eqb (handle_of x0) h))
                   (timeouts s))
      with (clearTimeout (Some h) (timeouts s)).
    rewrite regenerations_clear.
    destruct Nr as [E | (h' & t' & E & V & L0 & L)]; rewrite E.
    + left. reflexivity.
    + cbn [clearTimeout filter handle_of].
      destruct (negb (Nat.eqb h' h)); [|left; reflexivity].
      right. exists h', t'. split; [reflexivity|]. split; [exact V|].
      split; [exact L0|]. exact (Q eq_refl t' L).
Qed.

Lemma run_keeps (events : list (Z * Happening)) :
  forall (past : list (Z * Happening)) (s s' : Timed),
    timer_after past s -> run events s = Some s' ->
    timer_after (past ++ events) s'.
Proof.
  induction events as [|[t what] rest IH]; intros past s s' Inv H; simpl in H.
  - injection H as <-. rewrite List.app_nil_r. exact Inv.
  - destruct (at_time t what s) as [s1|] eqn:A; [|discriminate H].
    change ((t, what) :: rest) with ([(t, what)] ++ rest).
    rewrite List.app_assoc.
    exact (IH _ _ _ (at_time_keeps past t what s s1 Inv A) H).
Qed.

Lemma run_app (a b : list (Z * Happening)) :
  forall s s' : Timed,
    run (a ++ b) s = Some s' ->
    exists s1, run a s = Some s1 /\ run b s1 = Some s'.
Proof.
  induction a as [|[t what] a IH]; intros s s' H; simpl in *.
  - exists s. split; [reflexivity | exact H].
  - destruct (at_time t what s) as [s1|]; [|discriminate H].
    exact (IH _ _ H).
Qed.

Lemma loaded_timer : timer_after [] loaded.
Proof.
  unfold timer_after, loaded. cbn [now timeouts timer_variable].
  split; [lia|]. split; [intros ? ? []|]. right. exists O, 300.
  split; [reflexivity|]. split; [reflexivity|]. split; [lia|].
  intros ? ? [].
Qed.

(** X11.  In every run of the page from the moment it is loaded, a
    regeneration happens no sooner than [300] after the page was loaded
    and no sooner than [300] after any input that came before it: while
    inputs keep arriving less than [300] apart, nothing is regenerated. *)
Theorem regeneration_waits_for_quiet (events : list (Z * Happening))
    (s : Timed) (before after : list (Z * Happening)) (t : Z) (h : nat) :
  run events loaded = Some s ->
  events = before ++ (t, Callback h) :: after ->
  300 <= t /\
  forall t1 e1, In (t1, Input e1) before -> t1 + 300 <= t.
Proof.
  intros H ->. apply run_app in H. destruct H as (s1 & H1 & H2).
  assert (Inv := run_keeps before [] loaded s1 loaded_timer H1).
  simpl in Inv, H2.
  destruct (at_time t (Callback h) s1) as [s2|] eqn:A; [|discriminate H2].
  unfold at_time in A. destruct (t <? now s1); [discriminate A|].
  destruct (pending h (timeouts s1)) as [x|] eqn:Pd; [|discriminate A].
  destruct (is_regeneration x) eqn:R; [|discriminate A].
  destruct (pending_timer before s1 h x Inv Pd R) as (_ & _ & L0 & L).
  destruct (Z.leb_spec (due x) t); [|discriminate A].
  split; [lia|]. intros t1 e1 I1. specialize (L t1 (Input e1) I1 eq_refl). lia.
Qed.

Lemma regeneration_waits_for_quiet_witness :
  exists s : Timed,
    run [(100, Input (RadiusInput "3")); (350, Input (DepthInput "1"));
         (650, Callback 2%nat)] loaded = Some s /\
    300 <= 650 /\
    forall t1 e1,
      In (t1, Input e1)
         [(100, Input (RadiusInput "3")); (350, Input (DepthInput "1"))] ->
      t1 + 300 <= 650.
Proof.
  eexists. split; [reflexivity|].
  eapply (regeneration_waits_for_quiet
            [(100, Input (RadiusInput "3")); (350, Input (DepthInput "1"));
             (650, Callback 2%nat)]
            _ [(100, Input (RadiusInput "3")); (350, Input (DepthInput "1"))]
            [] 650 2%nat);
    reflexivity.
Defined.

(** X12.  In every run of the page, downloads included, at most one of
    the pending timeouts waits to regenerate, because every listener
    clears the one it replaces and a download sets a timeout of its own
    kind; and right after a regeneration none waits to regenerate, so a
    burst of inputs is followed by one regeneration and the next one
    needs a new input. *)
Theorem one_regeneration_pending (events : list (Z * Happening))
    (s : Timed) :
  run events loaded = Some s ->
  (List.length (regenerations (timeouts s)) <= 1)%nat /\
  (forall before t h, events = before ++ [(t, Callback h)] ->
                      regenerations (timeouts s) = []).
Proof.
  intro H. split.
  - destruct (run_keeps events [] loaded s loaded_timer H)
      as (_ & _ & [E | (h & t0 & E & _)]); rewrite E; simpl; lia.
  - intros before t h ->. apply run_app in H. destruct H as (s1 & H1 & H2).
    assert (Inv := run_keeps before [] loaded s1 loaded_timer H1).
    simpl in Inv, H2.
    destruct (at_time t (Callback h) s1) as [s2|] eqn:A; [|discriminate H2].
    injection H2 as <-. unfold at_time in A.
    destruct (t <? now s1); [discriminate A|].
    destruct (pending h (timeouts s1)) as [x|] eqn:Pd; [|discriminate A].
    destruct (is_regeneration x) eqn:R; [|discriminate A].
    destruct (pending_timer before s1 h x Inv Pd R) as (E & Hh & _ & _).
    destruct (due x <=? t); [|discriminate A]. cbn [andb] in A.
    destruct (generateModel _); [|discriminate A].
    injection A as <-. cbn [timeouts].
    change (filter (fun x0 : Timeout => negb (Nat.eqb (handle_of x0) h))
                   (timeouts s1))
      with (clearTimeout (Some h) (timeouts s1)).
    rewrite regenerations_clear, E.
    simpl. rewrite Hh, Nat.eqb_refl. reflexivity.
Qed.

Lemma one_regeneration_pending_witness :
  exists s : Timed,
    run [(100, Input (RadiusInput "3")); (120, Download);
         (230, Removal 2%nat); (350, Input (DepthInput "1")); (360, Download);
         (650, Callback 3%nat)] loaded = Some s /\
    List.length (timeouts s) = 1%nat /\
    (List.length (regenerations (timeouts s)) <= 1)%nat /\
    regenerations (timeouts s) = [].
Proof.
  eexists. split; [reflexivity|]. split; [reflexivity|].
  destruct (one_regeneration_pending
              [(100, Input (RadiusInput "3")); (120, Download);
               (230, Removal 2%nat); (350, Input (DepthInput "1")); (360, Download);
               (650, Callback 3%nat)] _ eq_refl) as [L E].
  split; [exact L|].
  exact (E [(100, Input (RadiusInput "3")); (120, Download);
            (230, Removal 2%nat); (350, Input (DepthInput "1")); (360, Download)]
           650 3%nat eq_refl).
Defined.



(** ** The displays *)

Lemma vars_updateHeightDisplay (p : Page) :
  vars (updateHeightDisplay p) = vars p.
Proof.
  unfold updateHeightDisplay. destruct (String.eqb _ _); reflexivity.
Qed.

Lemma vars_updateModeUI (p : Page) : vars (updateModeUI p) = vars p.
Proof.
  unfold updateModeUI. rewrite vars_updateHeightDisplay.
  destruct (String.eqb _ _); reflexivity.
Qed.

Lemma page_handle_vars (e : Event) (p p' : Page) :
  page_handle e p = Some p' -> handle e (vars p) = Some (vars p').
Proof.
  destruct e; simpl; try (intros [= <-]; reflexivity).
  - intros [= <-]. unfold page_mode_change. cbn [with_vars vars].
    rewrite vars_updateModeUI. reflexivity.
  - intros [= <-]. unfold page_holes_input. cbn [with_vars vars].
    rewrite vars_updateHeightDisplay. reflexivity.
  - intros [= <-]. unfold page_batch_input, on_batch_input.
    cbn [with_vars vars]. rewrite vars_updateHeightDisplay.
    destruct (_ <? _); reflexivity.
  - destruct (debounceTimer (vars p)).
    + destruct (generateModel _); [|discriminate]. intros [= <-]. reflexivity.
    + intros [= <-]. reflexivity.
Qed.

Lemma page_reachable_vars (p : Page) : page_reachable p -> reachable (vars p).
Proof.
  induction 1 as [|p e p' _ IH H].
  - exact reach_initial.
  - exact (reach_handle (vars p) e (vars p') IH (page_handle_vars e p p' H)).
Qed.

Lemma updateHeightDisplay_agrees (p : Page) :
  (mode (vars p) = "single" ->
   singleControls_display p = Some "block" /\
   batchControls_display p = Some "none") ->
  (mode (vars p) <> "single" ->
   singleControls_display p = Some "none" /\
   batchControls_display p = Some "block") ->
  (holesValDisplay p = as_loaded \/
   holesValDisplay p = number_text (numHoles (vars p))) ->
  displays_agree (updateHeightDisplay p).
Proof.
  intros S B V. unfold updateHeightDisplay, displays_agree.
  destruct (String.eqb_spec (mode (vars p)) "single") as [E | E];
    cbn [vars singleControls_display batchControls_display heightDisplay
         holesValDisplay].
  - split; [intros _; destruct (S E); auto|]. split; [contradiction | exact V].
  - split; [contradiction|]. split; [intros _; destruct (B E); auto | exact V].
Qed.

Lemma with_vars_agrees (f : State -> State) (p : Page) :
  mode (f (vars p)) = mode (vars p) ->
  numHoles (f (vars p)) = numHoles (vars p) ->
  displays_agree p -> displays_agree (with_vars f p).
Proof.
  intros M N. unfold displays_agree, with_vars.
  cbn [vars singleControls_display batchControls_display heightDisplay
       holesValDisplay]. rewrite M, N. tauto.
Qed.

Lemma page_handle_agrees (e : Event) (p p' : Page) :
  displays_agree p -> page_handle e p = Some p' -> displays_agree p'.
Proof.
  intros (S & B & V) H. destruct e; cbn [page_handle] in H.
  - injection H as <-. unfold page_mode_change.
    apply with_vars_agrees; [reflexivity | reflexivity |].
    unfold updateModeUI.
    destruct (String.eqb_spec (mode (vars (with_vars (set_mode value) p)))
                "single") as [E | E];
      apply updateHeightDisplay_agrees;
      cbn [vars singleControls_display batchControls_display holesValDisplay
           with_vars set_mode numHoles] in *;
      try (intros; split; reflexivity); try contradiction; try exact V;
      intro; contradiction.
  - injection H as <-. unfold page_holes_input.
    apply with_vars_agrees; [reflexivity | reflexivity |].
    apply updateHeightDisplay_agrees;
      cbn [vars singleControls_display batchControls_display holesValDisplay
           with_vars set_numHoles mode numHoles].
    + intro E. destruct (S E) as (A & C & _). auto.
    + intro E. destruct (B E) as (A & C & _). auto.
    + right. reflexivity.
  - injection H as <-. unfold page_batch_input.
    apply with_vars_agrees; [reflexivity | reflexivity |].
    apply updateHeightDisplay_agrees; destruct (_ <? _);
      cbn [vars singleControls_display batchControls_display holesValDisplay
           with_vars set_batchList mode numHoles]; try exact V;
      intro E; try (destruct (S E) as (A & C & _); auto);
      destruct (B E) as (A & C & _); auto.
  - injection H as <-. apply with_vars_agrees; [reflexivity | reflexivity |].
    split; [exact S | split; [exact B | exact V]].
  - injection H as <-. apply with_vars_agrees; [reflexivity | reflexivity |].
    split; [exact S | split; [exact B | exact V]].
  - destruct (handle TimerFires (vars p)) as [st|] eqn:E; [|discriminate H].
    cbn [option_map] in H. injection H as <-. simpl in E.
    assert (P : same_parameters (vars p) st).
    { destruct (debounceTimer (vars p)).
      - apply generateModel_parameters in E. exact E.
      - injection E as <-. repeat split. }
    destruct P as (M & N & _).
    apply with_vars_agrees; [symmetry; exact M | symmetry; exact N |].
    split; [exact S | split; [exact B | exact V]].
Qed.

(** X14.  On every page a session reaches the displays tell the
    parameters: exactly the controls of the mode in use are shown; the
    height display holds [numHoles * 20] in single mode and [Variable]
    otherwise; the hole count display holds what the document came with
    or [numHoles].  And in single mode the height on display is the
    height of the box the next regeneration builds. *)
Theorem displays_follow_parameters (p : Page) :
  page_reachable p ->
  displays_agree p /\
  (mode (vars p) = "single" ->
   exists (st' : State) (m : Mesh) (h : number),
     generateModel (vars p) = Some st' /\ currentMeshes st' = [m] /\
     heightDisplay p = number_text h /\ boxHeight_of m = Some h).
Proof.
  intro Hr.
  assert (A : displays_agree p).
  { induction Hr as [|p e p' _ IH H].
    - split; [|split].
      + intros _. repeat split.
      + intro N. exfalso. apply N. reflexivity.
      + left. reflexivity.
    - exact (page_handle_agrees e p p' IH H). }
  split; [exact A|]. intro M.
  assert (R := page_reachable_vars p Hr).
  rewrite (generateModel_total (vars p) R).
  assert (B : blocksToMake (vars p) = [numHoles (vars p)]).
  { unfold blocksToMake. rewrite M. reflexivity. }
  rewrite B. eexists; eexists; eexists. split; [reflexivity|].
  split; [reflexivity|]. destruct A as (S & _). destruct (S M) as (_ & _ & H).
  split; [exact H | reflexivity].
Qed.

Lemma displays_follow_parameters_witness :
  displays_agree (page_holes_input "7" initial_page) /\
  exists (st' : State) (m : Mesh) (h : number),
    generateModel (vars (page_holes_input "7" initial_page)) = Some st' /\
    currentMeshes st' = [m] /\
    heightDisplay (page_holes_input "7" initial_page) = number_text h /\
    boxHeight_of m = Some h.
Proof.
  destruct (displays_follow_parameters (page_holes_input "7" initial_page))
    as [A B].
  - apply (page_step initial_page (HolesInput "7")); [|reflexivity].
    exact page_initial.
  - split; [exact A | exact (B eq_refl)].
Defined.

(** ** What the holes field stores *)



(** ** Between an input and the regeneration *)

(** X16.  However many inputs arrive before the next regeneration, the
    meshes on display, and so the group the OBJ download exports, stay
    those of the last regeneration; and after one input or more a
    regeneration is pending. *)
Theorem inputs_leave_the_preview (es : list Event) (st st' : State) :
  inputs es st = Some st' ->
  downloadOBJ st' = downloadOBJ st /\
  currentMeshes st' = currentMeshes st /\
  (es <> [] -> debounceTimer st' = true).
Proof.
  revert st. induction es as [|e rest IH]; intros st H; simpl in H.
  - injection H as <-. repeat split. intro N. contradiction.
  - destruct (is_input e) eqn:I; [|discriminate H].
    destruct (handle e st) as [st1|] eqn:E; [|discriminate H].
    destruct (input_arms_timer e st st1 I E) as [T M].
    destruct (IH st1 H) as (O' & M' & T').
    unfold downloadOBJ in *. rewrite M', M.
    split; [reflexivity|]. split; [reflexivity|]. intros _.
    destruct rest as [|e' rest'].
    + simpl in H. injection H as <-. exact T.
    + apply T'. discriminate.
Qed.

Lemma inputs_leave_the_preview_witness :
  exists st st' : State,
    handle TimerFires initial = Some st /\
    inputs [HolesInput "9"; RadiusInput "2"] st = Some st' /\
    downloadOBJ st' = downloadOBJ st /\
    debounceTimer st' = true.
Proof.
  eexists; eexists. split; [reflexivity|]. split; [reflexivity|].
  match goal with
  | |- downloadOBJ ?b = downloadOBJ ?a /\ _ =>
      destruct (inputs_leave_the_preview
                  [HolesInput "9"; RadiusInput "2"] a b eq_refl)
        as (O & _ & T)
  end.
  split; [exact O | apply T; discriminate].
Defined.

(** ** Which way the cutters run *)

Ltac across := split; [reflexivity|]; split; q_equal.

Ltac runs :=
  eexists; split; [reflexivity|];
  cbn [name Py.on_plane brush_runs plane_runs];
  unfold runs_along_X, runs_along_Z; across.

Ltac member := (left; reflexivity) + (right; member).

Ltac crosses Sub :=
  cbn [name crossing]; intros nm Hn;
  first
    [ discriminate Hn
    | injection Hn as <-;
      eexists; split; [apply Sub; member | split; reflexivity] ].

Ltac planes_cross Sub :=
  cbn [Py.on_plane crossing_plane]; intros nm Hn;
  first
    [ discriminate Hn
    | injection Hn as <-;
      eexists; split;
      [ apply Sub; member
      | split;
        [ reflexivity
        | eexists; eexists; split; [reflexivity|]; split; [reflexivity|];
          split; [q_equal | split; q_equal] ] ] ].

(** X17.  In both pipelines every cutter but the vertical one is
    horizontal, and the name it is made under tells which way it runs.
    The through-holes [xBrush] and the end grooves [topX], [botX] run
    along X through the block axis, [zBrush], [topZ], [botZ] along Z;
    each of them comes with its partner of the other direction at the
    same centre, so the two through-holes of a level and the two grooves
    of an end cross on the block axis.  A side groove runs along the
    face it is cut into: [fG] and [bG], moved along Z by the groove
    offset and its opposite, run along X; [rG] and [lG], moved along X,
    run along Z.  The planes of the script follow the same pattern. *)
Theorem cutters_run_along_faces (n : Z) (r d : Q) (index : Z) :
  let x0 := (inject_Z index * inject_Z 40)%Q in
  let off := (inject_Z 20 / inject_Z 2 - d + r)%Q in
  (exists m : Mesh,
      make_block (Num r) (Num d) (of_Z n) index = Some m /\
      forall b : Brush,
        In b (cut m) ->
        (exists p : Cutter,
            brush_cutter b = Some p /\ brush_runs (name b) x0 off p) /\
        (forall nm : BrushName,
            crossing (name b) = Some nm ->
            exists b' : Brush,
              In b' (cut m) /\ name b' = nm /\ position b' = position b))
  /\
  (forall st : State,
      drillRadius st = Num r -> grooveDepth st = Num d ->
      exists blk : Py.Block,
        Py.create_block (downloadRhinoScript st) (inject_Z n) x0 = Some blk /\
        forall c : Py.Cylinder,
          In c (Py.cutters blk) ->
          (exists q : Cutter,
              cylinder_cutter c = Some q /\
              plane_runs (Py.on_plane c) x0 off q) /\
          (forall nm : Py.PlaneName,
              crossing_plane (Py.on_plane c) = Some nm ->
              exists c' : Py.Cylinder,
                In c' (Py.cutters blk) /\ Py.on_plane c' = nm /\
                exists q q' : Cutter,
                  cylinder_cutter c = Some q /\
                  cylinder_cutter c' = Some q' /\ same_centre q q')).
Proof.
  intros x0 off. split.
  - exists (block_of (Num r) (Num d) (of_Z n) index).
    split; [apply make_block_spec, ends_of_Z|].
    intros b Hb. unfold block_of in *. cbv zeta in *. simpl cut in *.
    destruct Hb as [<- | Hb];
      [split; [unfold x0, off; runs | intros nm Hn; discriminate Hn]|].
    apply in_app_or in Hb. destruct Hb as [Hb | Hb].
    + apply in_flat_map in Hb. destruct Hb as (i & Hi & Hb).
      match type of Hb with In _ ?l =>
        match goal with |- context [In _ ?whole] =>
          assert (Sub : forall b', In b' l -> In b' whole)
        end
      end.
      { intros b' H'. right. apply in_or_app. left. apply in_flat_map.
        exists i. split; assumption. }
      revert Sub Hb. unfold level_brushes, hole_level.
      destruct (Num d >? of_Z 0)%js; cbn [cut evaluate app base];
        intros Sub Hb.
      * destruct Hb as [<- | [<- | [<- | [<- | [<- | [<- | []]]]]]];
          (split; [unfold x0, off; runs | crosses Sub]).
      * destruct Hb as [<- | [<- | []]];
          (split; [unfold x0, off; runs | crosses Sub]).
    + match type of Hb with In _ ?l =>
        match goal with |- context [In _ ?whole] =>
          assert (Sub : forall b', In b' l -> In b' whole)
        end
      end.
      { intros b' H'. right. apply in_or_app. right. exact H'. }
      revert Sub Hb. unfold end_brushes, end_grooves.
      destruct (Num d >? of_Z 0)%js; cbn [cut evaluate app base];
        intros Sub Hb.
      * destruct Hb as [<- | [<- | [<- | [<- | []]]]];
          (split; [unfold x0, off; runs | crosses Sub]).
      * destruct Hb.
  - intros st R D.
    eexists. split; [apply (create_block_spec _ _ _ _ _ R D)|].
    intros c Hc. unfold script_block in *. cbv zeta in *.
    simpl Py.cutters in *.
    destruct Hc as [<- | Hc];
      [split; [unfold x0, off; runs | intros nm Hn; discriminate Hn]|].
    apply in_app_or in Hc. destruct Hc as [Hc | Hc].
    + apply in_flat_map in Hc. destruct Hc as (i & Hi & Hc).
      match type of Hc with In _ ?l =>
        match goal with |- context [In _ ?whole] =>
          assert (Sub : forall c', In c' l -> In c' whole)
        end
      end.
      { intros c' H'. right. apply in_or_app. left. apply in_flat_map.
        exists i. split; assumption. }
      revert Sub Hc. unfold level_cylinders, Py.level.
      cbn [downloadRhinoScript lit_level_guard]. rewrite D.
      cbn [Py.lit Py.bind].
      destruct (Qltb 0 d); cbn [or_nil app]; intros Sub Hc.
      * destruct Hc as [<- | [<- | [<- | [<- | [<- | [<- | []]]]]]];
          (split; [unfold x0, off; runs | planes_cross Sub]).
      * destruct Hc as [<- | [<- | []]];
          (split; [unfold x0, off; runs | planes_cross Sub]).
    + match type of Hc with In _ ?l =>
        match goal with |- context [In _ ?whole] =>
          assert (Sub : forall c', In c' l -> In c' whole)
        end
      end.
      { intros c' H'. right. apply in_or_app. right. exact H'. }
      revert Sub Hc. unfold end_cylinders, Py.end_cutters.
      cbn [downloadRhinoScript lit_ends_guard lit_tb_depth lit_tb_radius].
      rewrite D, R. cbn [Py.lit Py.bind].
      destruct (Qltb 0 d); cbn [or_nil app]; intros Sub Hc.
      * destruct Hc as [<- | [<- | [<- | [<- | []]]]];
          (split; [unfold x0, off; runs | planes_cross Sub]).
      * destruct Hc.
Qed.

Lemma cutters_run_along_faces_witness :
  exists blk : Py.Block,
    Py.create_block (downloadRhinoScript initial) (inject_Z 5)
                    (inject_Z 1 * inject_Z 40) = Some blk /\
    forall c : Py.Cylinder,
      In c (Py.cutters blk) ->
      (exists q : Cutter,
          cylinder_cutter c = Some q /\
          plane_runs (Py.on_plane c) (inject_Z 1 * inject_Z 40)
                     (inject_Z 20 / inject_Z 2 - (1 # 2) + 4) q) /\
      (forall nm : Py.PlaneName,
          crossing_plane (Py.on_plane c) = Some nm ->
          exists c' : Py.Cylinder,
            In c' (Py.cutters blk) /\ Py.on_plane c' = nm /\
            exists q q' : Cutter,
              cylinder_cutter c = Some q /\
              cylinder_cutter c' = Some q' /\ same_centre q q').
Proof.
  exact (proj2 (cutters_run_along_faces 5 4 (1 # 2) 1) initial
               eq_refl eq_refl).
Defined.
